(** * PonyfillBody: the body abstraction of packages/node-fetch/src/Body.ts

    A shallow embedding of [processBodyInit] and of the [PonyfillBody] class
    (memoized stream accessor, materialization methods, multipart handlers),
    followed by the properties checked against it.

    Platform behaviour that the TypeScript code relies on (Node's Buffer
    codec, Readable event order, JSON.parse, busboy's event emission) is
    either written out (UTF-8) or collected in the [Platform] record. *)

From Stdlib Require Import List Strings.String Strings.Ascii Strings.Byte NArith Arith Bool Lia.
Import ListNotations.
Local Open Scope list_scope.

Set Implicit Arguments.

(* ------------------------------------------------------------------ *)
(** ** Bytes and strings *)

(** The visible bytes of a Buffer, Uint8Array or ArrayBuffer. *)
Definition Bytes := list byte.

(** A JavaScript string, as the list of its code points: a surrogate pair is
    one element, a lone surrogate is an element in D800..DFFF. *)
Definition JsString := list N.

(** An ASCII literal as a JavaScript string. *)
Definition js (s : string) : JsString :=
  map N_of_ascii (list_ascii_of_string s).

Definition nbyte (n : N) : byte :=
  match Byte.of_N (n mod 256) with
  | Some b => b
  | None => x00
  end.

Definition is_surrogate (c : N) : bool :=
  ((0xD800 <=? c) && (c <=? 0xDFFF))%N.

(** [Buffer.from(string)]: UTF-8, a lone surrogate is written as U+FFFD. *)
Definition utf8_encode_cp (c0 : N) : Bytes :=
  let c := if is_surrogate c0 then 0xFFFD%N else c0 in
  if (c <? 0x80)%N then [nbyte c]
  else if (c <? 0x800)%N then
    [nbyte (N.lor 0xC0 (N.shiftr c 6)); nbyte (N.lor 0x80 (N.land c 0x3F))]
  else if (c <? 0x10000)%N then
    [nbyte (N.lor 0xE0 (N.shiftr c 12));
     nbyte (N.lor 0x80 (N.land (N.shiftr c 6) 0x3F));
     nbyte (N.lor 0x80 (N.land c 0x3F))]
  else
    [nbyte (N.lor 0xF0 (N.shiftr c 18));
     nbyte (N.lor 0x80 (N.land (N.shiftr c 12) 0x3F));
     nbyte (N.lor 0x80 (N.land (N.shiftr c 6) 0x3F));
     nbyte (N.lor 0x80 (N.land c 0x3F))].

Definition utf8_encode (s : JsString) : Bytes := flat_map utf8_encode_cp s.

(** [buf.toString('utf-8')]: the decoder state of the Encoding standard. *)
Record Utf8State := {
  u_cp : N;
  u_needed : nat;
  u_lower : N;
  u_upper : N
}.

Definition utf8_init : Utf8State :=
  {| u_cp := 0; u_needed := 0; u_lower := 0x80; u_upper := 0xBF |}.

Definition between (lo x hi : N) : bool := ((lo <=? x) && (x <=? hi))%N.

(** A byte met when no sequence is open. *)
Definition utf8_lead (b : N) : list N * Utf8State :=
  if (b <=? 0x7F)%N then ([b], utf8_init)
  else if between 0xC2 b 0xDF then
    ([], {| u_cp := N.land b 0x1F; u_needed := 1;
            u_lower := 0x80; u_upper := 0xBF |})
  else if between 0xE0 b 0xEF then
    ([], {| u_cp := N.land b 0xF; u_needed := 2;
            u_lower := if (b =? 0xE0)%N then 0xA0 else 0x80;
            u_upper := if (b =? 0xED)%N then 0x9F else 0xBF |})
  else if between 0xF0 b 0xF4 then
    ([], {| u_cp := N.land b 0x7; u_needed := 3;
            u_lower := if (b =? 0xF0)%N then 0x90 else 0x80;
            u_upper := if (b =? 0xF4)%N then 0x8F else 0xBF |})
  else ([0xFFFD%N], utf8_init).

Definition utf8_step (st : Utf8State) (b : N) : list N * Utf8State :=
  match u_needed st with
  | O => utf8_lead b
  | S k =>
      if between (u_lower st) b (u_upper st) then
        let c := N.lor (N.shiftl (u_cp st) 6) (N.land b 0x3F) in
        match k with
        | O => ([c], utf8_init)
        | S _ => ([], {| u_cp := c; u_needed := k;
                         u_lower := 0x80; u_upper := 0xBF |})
        end
      else
        (* the open sequence is replaced and the byte is read again *)
        let r := utf8_lead b in (0xFFFD%N :: fst r, snd r)
  end.

Fixpoint utf8_decode_from (st : Utf8State) (bs : Bytes) : JsString :=
  match bs with
  | [] => match u_needed st with O => [] | S _ => [0xFFFD%N] end
  | b :: rest =>
      let r := utf8_step st (Byte.to_N b) in
      fst r ++ utf8_decode_from (snd r) rest
  end.

Definition utf8_decode (bs : Bytes) : JsString := utf8_decode_from utf8_init bs.

(* ------------------------------------------------------------------ *)
(** ** Collaborators of the body *)

(** The tags of the TypeScript enum [BodyInitType]. *)
Module BodyInitType.
Inductive t :=
| ReadableStream | Blob | FormData | ArrayBuffer
| String | Readable | Buffer | Uint8Array.

Definition eqb (a b : t) : bool :=
  match a, b with
  | ReadableStream, ReadableStream | Blob, Blob | FormData, FormData
  | ArrayBuffer, ArrayBuffer | String, String | Readable, Readable
  | Buffer, Buffer | Uint8Array, Uint8Array => true
  | _, _ => false
  end.
End BodyInitType.

(** The tag stored in [this.bodyType] (absent when no branch sets it). *)
Definition bodyType_is (bt : option BodyInitType.t) (k : BodyInitType.t) : bool :=
  match bt with
  | Some x => BodyInitType.eqb x k
  | None => false
  end.

(** Modelled from the spec: the blob abstraction of Blob.js (not under src),
    an opaque, sized, typed binary object built from parts; its content is
    the concatenation of its parts, a text part counting as its UTF-8 bytes. *)
Inductive BlobPart :=
| PartString (s : JsString)
| PartBytes (b : Bytes)
| PartOther.

Record PonyfillBlob := {
  blob_parts : list BlobPart;
  blob_type : JsString
}.

Definition blob_part_bytes (p : BlobPart) : option Bytes :=
  match p with
  | PartString s => Some (utf8_encode s)
  | PartBytes b => Some b
  | PartOther => None
  end.

Fixpoint blob_bytes_of (ps : list BlobPart) : option Bytes :=
  match ps with
  | [] => Some []
  | p :: rest =>
      match blob_part_bytes p, blob_bytes_of rest with
      | Some b, Some r => Some (b ++ r)
      | _, _ => None
      end
  end.

Definition blob_bytes (b : PonyfillBlob) : option Bytes :=
  blob_bytes_of (blob_parts b).

Definition blob_size (b : PonyfillBlob) : nat :=
  fold_right (fun p n => match blob_part_bytes p with
                         | Some x => List.length x + n
                         | None => n
                         end) 0 (blob_parts b).

(** [new PonyfillFile(chunks, filename, { type: mimeType })]. *)
Record PonyfillFile := {
  file_chunks : list Bytes;
  file_name : JsString;
  file_type : JsString
}.

Inductive FormDataEntryValue :=
| EntryString (s : JsString)
| EntryFile (f : PonyfillFile).

(** Modelled from the spec: the form-data collection of FormData.js (not
    under src), an ordered, name-keyed collection with the standard
    [set]/[append]: [set] replaces the first entry of that name and removes
    the others, or adds the entry at the end when the name is new;
    [append] always adds at the end. *)
Definition PonyfillFormData := list (JsString * FormDataEntryValue).

Definition name_eqb (a b : JsString) : bool :=
  if list_eq_dec N.eq_dec a b then true else false.

Definition formData_remove (name : JsString) (fd : PonyfillFormData)
  : PonyfillFormData :=
  filter (fun e => negb (name_eqb (fst e) name)) fd.

Fixpoint formData_set (name : JsString) (v : FormDataEntryValue)
                      (fd : PonyfillFormData) : PonyfillFormData :=
  match fd with
  | [] => [(name, v)]
  | (n, x) :: rest =>
      if name_eqb n name then (name, v) :: formData_remove name rest
      else (n, x) :: formData_set name v rest
  end.

Definition formData_append (name : JsString) (v : FormDataEntryValue)
                           (fd : PonyfillFormData) : PonyfillFormData :=
  fd ++ [(name, v)].

Definition formData_getAll (name : JsString) (fd : PonyfillFormData)
  : list FormDataEntryValue :=
  map snd (filter (fun e => name_eqb (fst e) name) fd).

Definition formData_names (fd : PonyfillFormData) : list JsString :=
  map fst fd.

(* ------------------------------------------------------------------ *)
(** ** JavaScript values and errors *)

(** An object of no class named below (a plain object, an iterable, an
    object that only has a member of the name the classifier looks for): the
    outcome of each [in] and symbol probe, and the members the classifier
    reads. A member that is present is callable. *)
Record ObjectShape := {
  has_buffer : bool;
  has_stream : bool;
  has_sort : bool;
  has_forEach : bool;
  has_iterator : bool;
  has_asyncIterator : bool;
  get_byteLength : option nat;
  get_type : option JsString;
  get_size : option nat
}.

(** The values a caller can hand to the constructor. The declared type
    [BodyPonyfillInit | null] has null, strings and objects; numbers and
    booleans only arrive through [any]. Streams are named by a handle.
    [JArrayBufferView] is a view on an ArrayBuffer that is no Uint8Array (a
    DataView, an Int16Array, ...), [JBlob] a Blob of the platform, with its
    type and size. *)
Inductive JsValue :=
| JNull
| JUndefined
| JNumber (n : N)
| JBoolean (b : bool)
| JString (s : JsString)
| JBuffer (b : Bytes)
| JPonyfillReadableStream (h : nat)
| JPonyfillBlob (b : PonyfillBlob)
| JUint8Array (b : Bytes)
| JArrayBufferView (b : Bytes)
| JArrayBuffer (b : Bytes)
| JReadable (h : nat)
| JBlob (type : JsString) (size : nat)
| JURLSearchParams (p : list (JsString * JsString))
| JFormData (fd : PonyfillFormData)
| JObject (o : ObjectShape).

Inductive JsError :=
| Error_UnknownBodyType               (* new Error('Unknown body type') *)
| TypeError_in_operator               (* 'k' in <primitive> *)
| TypeError_invalid_argument          (* a call on a value of the wrong kind *)
| SyntaxError_JSON                    (* thrown by JSON.parse *)
| Error_FieldNameSize (limit : option N)
| Error_FieldValueSize (limit : option N)
| Error_FieldsLimit (limit : option N)
| Error_FileSizeLimit (limit : option N)
| Error_FilesLimit (limit : option N)
| Error_PartsLimit (limit : option N)
| Error_platform (code : nat).        (* raised by a stream or by the decoder *)

(** A synchronous result: a value or a thrown error. *)
Inductive Completion (A : Type) :=
| Normal (a : A)
| Throw (e : JsError).
Arguments Normal {A} a.
Arguments Throw {A} e.

(** The fate of a promise once the event loop is idle. *)
Inductive Outcome (A : Type) :=
| Resolved (a : A)
| Rejected (e : JsError)
| Pending.
Arguments Resolved {A} a.
Arguments Rejected {A} e.
Arguments Pending {A}.

(** Parsed JSON. A number keeps its literal. *)
Local Unset Elimination Schemes.
Inductive Json :=
| Json_null
| Json_bool (b : bool)
| Json_number (literal : JsString)
| Json_string (s : JsString)
| Json_array (items : list Json)
| Json_object (members : list (JsString * Json)).
Local Set Elimination Schemes.

(* ------------------------------------------------------------------ *)
(** ** Streams *)

(** How the Node readable under a stream wrapper was obtained; the
    constructors follow the expressions of the factories:
    [Readable.from(v)], [Readable.from(Buffer.from(v, ...))], the readable
    handed in or wrapped by the stream handed in, [blob.stream()],
    [v.stream()] and [getStreamFromFormData(v, boundary)]. *)
Inductive Readable :=
| Readable_from (v : JsValue)
| Readable_from_Buffer_from (v : JsValue)
| supplied_Readable (h : nat)
| readable_of_supplied_stream (h : nat)
| blob_stream (b : PonyfillBlob)
| stream_of (v : JsValue)
| getStreamFromFormData (v : JsValue) (boundary : JsString).

(** The identity of a stream wrapper: one handed in by the caller, or the
    n-th object created by a factory. *)
Inductive StreamRef :=
| Supplied (h : nat)
| Created (n : nat).

Definition StreamRef_eqb (a b : StreamRef) : bool :=
  match a, b with
  | Supplied x, Supplied y => Nat.eqb x y
  | Created x, Created y => Nat.eqb x y
  | _, _ => false
  end.

Record PonyfillReadableStream := {
  stream_ref : StreamRef;
  readable : Readable
}.

(** What a readable emits when it first flows: its data chunks, then 'end'
    ([None]) or 'error'. *)
Definition ReadableEvents := (list Bytes * option JsError)%type.

(** [FormDataLimits]; an absent member is [None]. *)
Record FormDataLimits := {
  fieldNameSize : option N;
  fieldSize : option N;
  fields : option N;
  fileSize : option N;
  files : option N;
  parts : option N;
  headerSize : option N
}.

Definition no_limits : FormDataLimits :=
  {| fieldNameSize := None; fieldSize := None; fields := None;
     fileSize := None; files := None; parts := None; headerSize := None |}.

Record PonyfillBodyOptions := {
  formDataLimits : option FormDataLimits
}.

(** What busboy reports of a file part: whether its stream emitted 'limit',
    the chunks it emitted, and its [truncated] flag at 'close'. *)
Record FileStream := {
  fs_limit : bool;
  fs_data : list Bytes;
  fs_truncated : bool
}.

(** The events of a busboy instance the body listens to. *)
Inductive BusboyEvent :=
| on_field (name value : JsString) (nameTruncated valueTruncated : bool)
| on_fieldsLimit
| on_file (name : JsString) (fileStream : FileStream) (filename mimeType : JsString)
| on_filesLimit
| on_partsLimit
| on_close
| on_error (err : JsError).

(** The platform under the body. *)
Record Platform := {
  (** [Math.random().toString(36).substr(2)] *)
  random_boundary : JsString;
  (** [URLSearchParams.prototype.toString] *)
  URLSearchParams_toString : list (JsString * JsString) -> JsString;
  (** the string a non-string value is coerced to *)
  ToString_object : JsValue -> JsString;
  (** [JSON.parse]; [None] when it throws a SyntaxError *)
  JSON_parse : JsString -> option Json;
  (** the events of a readable that flows for the first time *)
  readable_emits : Readable -> ReadableEvents;
  (** [busboy({ headers, limits })] throws for some content types *)
  busboy_throws : JsString -> FormDataLimits -> option JsError;
  (** the events busboy emits when the readable is piped into it *)
  busboy_emits : JsString -> FormDataLimits -> ReadableEvents -> list BusboyEvent
}.

(* ------------------------------------------------------------------ *)
(** ** Runtime probes and conversions *)

Definition bind_completion {A B} (c : Completion A) (k : A -> Completion B)
  : Completion B :=
  match c with
  | Normal a => k a
  | Throw e => Throw e
  end.

Declare Scope completion_scope.
Delimit Scope completion_scope with completion.
Notation "x <- c ;; k" := (bind_completion c (fun x => k))
  (at level 100, c at next level, right associativity) : completion_scope.

(** [v == null] *)
Definition is_nullish (v : JsValue) : bool :=
  match v with JNull | JUndefined => true | _ => false end.

(** [typeof v === 'string'] *)
Definition typeof_string (v : JsValue) : bool :=
  match v with JString _ => true | _ => false end.

Definition instanceof_Buffer (v : JsValue) : bool :=
  match v with JBuffer _ => true | _ => false end.

Definition instanceof_PonyfillReadableStream (v : JsValue) : bool :=
  match v with JPonyfillReadableStream _ => true | _ => false end.

Definition instanceof_PonyfillBlob (v : JsValue) : bool :=
  match v with JPonyfillBlob _ => true | _ => false end.

(** A Buffer is a Uint8Array. *)
Definition instanceof_Uint8Array (v : JsValue) : bool :=
  match v with JBuffer _ | JUint8Array _ => true | _ => false end.

Definition instanceof_ArrayBuffer (v : JsValue) : bool :=
  match v with JArrayBuffer _ => true | _ => false end.

Definition instanceof_Readable (v : JsValue) : bool :=
  match v with JReadable _ => true | _ => false end.

Inductive Member := m_buffer | m_stream | m_sort | m_forEach.

(** ['k' in v]: a TypeError on a primitive; on an object, whether it has the
    member (own or inherited). *)
Definition js_in (k : Member) (v : JsValue) : Completion bool :=
  match v with
  | JNull | JUndefined | JNumber _ | JBoolean _ | JString _ =>
      Throw TypeError_in_operator
  | JBuffer _ | JUint8Array _ =>
      Normal (match k with m_stream => false | _ => true end)
  | JArrayBufferView _ =>
      Normal (match k with m_buffer => true | _ => false end)
  | JBlob _ _ =>
      Normal (match k with m_stream => true | _ => false end)
  | JPonyfillBlob _ =>
      Normal (match k with m_buffer | m_stream => true | _ => false end)
  | JPonyfillReadableStream _ | JArrayBuffer _ | JReadable _ => Normal false
  | JURLSearchParams _ =>
      Normal (match k with m_sort | m_forEach => true | _ => false end)
  | JFormData _ =>
      Normal (match k with m_forEach => true | _ => false end)
  | JObject o =>
      Normal (match k with
              | m_buffer => has_buffer o
              | m_stream => has_stream o
              | m_sort => has_sort o
              | m_forEach => has_forEach o
              end)
  end.

(** [v[Symbol.iterator] || v[Symbol.asyncIterator]], as a condition. *)
Definition js_iterable (v : JsValue) : bool :=
  match v with
  | JString _ | JBuffer _ | JUint8Array _ | JReadable _
  | JPonyfillReadableStream _ | JURLSearchParams _ | JFormData _ => true
  | JObject o => has_iterator o || has_asyncIterator o
  | _ => false
  end.

(** [v.byteLength], [v.type], [v.size]; [None] is null or undefined. *)
Definition js_byteLength (v : JsValue) : option nat :=
  match v with
  | JBuffer b | JUint8Array b | JArrayBufferView b | JArrayBuffer b =>
      Some (List.length b)
  | JObject o => get_byteLength o
  | _ => None
  end.

Definition js_type (v : JsValue) : option JsString :=
  match v with
  | JPonyfillBlob b => Some (blob_type b)
  | JBlob type _ => Some type
  | JObject o => get_type o
  | _ => None
  end.

Definition js_size (v : JsValue) : option nat :=
  match v with
  | JPonyfillBlob b => Some (blob_size b)
  | JBlob _ size => Some size
  | JObject o => get_size o
  | _ => None
  end.

(** The part a value becomes inside [new PonyfillBlob([v], ...)]. *)
Definition as_BlobPart (v : JsValue) : BlobPart :=
  match v with
  | JString s => PartString s
  | JBuffer b | JUint8Array b | JArrayBuffer b => PartBytes b
  | _ => PartOther
  end.

(** Modelled from the spec: the type tag of a blob of Blob.js (not under
    src) built with the type option [type]. The spec names the tag but not
    what an empty option gives; the blobs of the package then report
    application/octet-stream, and so does this one. *)
Definition blob_type_of (type : JsString) : JsString :=
  match type with
  | [] => js "application/octet-stream"
  | _ => type
  end.

(** Modelled from the spec: [new PonyfillBlob(blobParts, { type })] of
    Blob.js (not under src) wraps the parts into a blob tagged with the
    type. *)
Definition new_PonyfillBlob (blobParts : list JsValue) (type : JsString)
  : PonyfillBlob :=
  {| blob_parts := map as_BlobPart blobParts; blob_type := blob_type_of type |}.

(** Modelled from the spec: [uint8ArrayToArrayBuffer] of utils.js (not under
    src) unwraps a typed array or buffer into the ArrayBuffer of its bytes. *)
Definition uint8ArrayToArrayBuffer (v : JsValue) : Completion JsValue :=
  match v with
  | JBuffer b | JUint8Array b => Normal (JArrayBuffer b)
  | _ => Throw TypeError_invalid_argument
  end.

(** [a || ''] on a nullable string. *)
Definition or_empty (a : option JsString) : JsString :=
  match a with Some s => s | None => [] end.

(** [{ ...a, ...b }] on two optional limit objects. *)
Definition override {A} (x y : option A) : option A :=
  match y with Some _ => y | None => x end.

Definition spread_limits (a b : option FormDataLimits) : FormDataLimits :=
  let x := match a with Some l => l | None => no_limits end in
  let y := match b with Some l => l | None => no_limits end in
  {| fieldNameSize := override (fieldNameSize x) (fieldNameSize y);
     fieldSize := override (fieldSize x) (fieldSize y);
     fields := override (fields x) (fields y);
     fileSize := override (fileSize x) (fileSize y);
     files := override (files x) (files y);
     parts := override (parts x) (parts y);
     headerSize := override (headerSize x) (headerSize y) |}.

(* ------------------------------------------------------------------ *)
(** ** The classifier *)

(** A factory is a closure; the number it receives names the object it
    creates when it creates one. *)
Definition BodyFactory := nat -> option PonyfillReadableStream.

Record ProcessedBodyInit := {
  res_bodyType : option BodyInitType.t;
  res_contentType : option JsString;
  res_contentLength : option nat;
  bodyFactory : BodyFactory
}.

Definition new_PonyfillReadableStream (n : nat) (r : Readable)
  : PonyfillReadableStream :=
  {| stream_ref := Created n; readable := r |}.

Section Body.

Variable pf : Platform.

(** [Buffer.from(v)] with a string, a byte container, or anything else. *)
Definition Buffer_from (v : JsValue) : Completion Bytes :=
  match v with
  | JString s => Normal (utf8_encode s)
  | JBuffer b | JUint8Array b | JArrayBuffer b => Normal b
  | _ => Throw TypeError_invalid_argument
  end.

(** [v.toString()] *)
Definition js_toString (v : JsValue) : JsString :=
  match v with
  | JString s => s
  | JURLSearchParams p => URLSearchParams_toString pf p
  | _ => ToString_object pf v
  end.

Definition processBodyInit (bodyInit : JsValue) : Completion ProcessedBodyInit :=
  if is_nullish bodyInit then
    Normal {| bodyFactory := fun _ => None;
              res_contentType := None;
              res_contentLength := None;
              res_bodyType := None |}
  else if typeof_string bodyInit then
    (buffer <- Buffer_from bodyInit ;;
     let contentLength := List.length buffer in
     Normal {| res_bodyType := Some BodyInitType.String;
               res_contentType := Some (js "text/plain;charset=UTF-8");
               res_contentLength := Some contentLength;
               bodyFactory := fun n =>
                 let readable := Readable_from (JBuffer buffer) in
                 Some (new_PonyfillReadableStream n readable) |})%completion
  else if instanceof_Buffer bodyInit then
    let contentLength := js_byteLength bodyInit in
    Normal {| res_bodyType := Some BodyInitType.Buffer;
              res_contentLength := contentLength;
              res_contentType := None;
              bodyFactory := fun n =>
                let readable := Readable_from bodyInit in
                let body := new_PonyfillReadableStream n readable in
                Some body |}
  else if instanceof_PonyfillReadableStream bodyInit then
    Normal {| res_bodyType := Some BodyInitType.ReadableStream;
              bodyFactory := fun _ =>
                match bodyInit with
                | JPonyfillReadableStream h =>
                    Some {| stream_ref := Supplied h;
                            readable := readable_of_supplied_stream h |}
                | _ => None
                end;
              res_contentType := None;
              res_contentLength := None |}
  else if instanceof_PonyfillBlob bodyInit then
    Normal {| res_bodyType := Some BodyInitType.Blob;
              res_contentType := js_type bodyInit;
              res_contentLength := js_size bodyInit;
              bodyFactory := fun n =>
                match bodyInit with
                | JPonyfillBlob b =>
                    Some (new_PonyfillReadableStream n (blob_stream b))
                | _ => None
                end |}
  else if instanceof_Uint8Array bodyInit then
    let contentLength := js_byteLength bodyInit in
    Normal {| res_bodyType := Some BodyInitType.Uint8Array;
              res_contentLength := contentLength;
              res_contentType := None;
              bodyFactory := fun n =>
                let readable := Readable_from bodyInit in
                let body := new_PonyfillReadableStream n readable in
                Some body |}
  else
    (in_buffer <- js_in m_buffer bodyInit ;;
     if in_buffer then
       let contentLength := js_byteLength bodyInit in
       Normal {| res_bodyType := None;
                 res_contentLength := contentLength;
                 res_contentType := None;
                 bodyFactory := fun n =>
                   let readable := Readable_from_Buffer_from bodyInit in
                   let body := new_PonyfillReadableStream n readable in
                   Some body |}
     else if instanceof_ArrayBuffer bodyInit then
       let contentLength := js_byteLength bodyInit in
       Normal {| res_bodyType := Some BodyInitType.ArrayBuffer;
                 res_contentType := None;
                 res_contentLength := contentLength;
                 bodyFactory := fun n =>
                   let readable := Readable_from_Buffer_from bodyInit in
                   let body := new_PonyfillReadableStream n readable in
                   Some body |}
     else if instanceof_Readable bodyInit then
       Normal {| res_bodyType := Some BodyInitType.Readable;
                 res_contentType := None;
                 res_contentLength := None;
                 bodyFactory := fun n =>
                   match bodyInit with
                   | JReadable h =>
                       Some (new_PonyfillReadableStream n (supplied_Readable h))
                   | _ => None
                   end |}
     else
       in_stream <- js_in m_stream bodyInit ;;
       if in_stream then
         Normal {| res_bodyType := None;
                   res_contentType := js_type bodyInit;
                   res_contentLength := js_size bodyInit;
                   bodyFactory := fun n =>
                     let bodyStream := stream_of bodyInit in
                     let body := new_PonyfillReadableStream n bodyStream in
                     Some body |}
       else
         in_sort <- js_in m_sort bodyInit ;;
         if in_sort then
           let contentType := js "application/x-www-form-urlencoded;charset=UTF-8" in
           Normal {| res_bodyType := Some BodyInitType.String;
                     res_contentType := Some contentType;
                     res_contentLength := None;
                     bodyFactory := fun n =>
                       let body := new_PonyfillReadableStream n
                                     (Readable_from (JString (js_toString bodyInit))) in
                       Some body |}
         else
           in_forEach <- js_in m_forEach bodyInit ;;
           if in_forEach then
             let boundary := random_boundary pf in
             let contentType := js "multipart/form-data; boundary=" ++ boundary in
             Normal {| res_bodyType := None;
                       res_contentType := Some contentType;
                       res_contentLength := None;
                       bodyFactory := fun n =>
                         Some (new_PonyfillReadableStream n
                                 (getStreamFromFormData bodyInit boundary)) |}
           else if js_iterable bodyInit then
             Normal {| res_bodyType := None;
                       res_contentType := None;
                       res_contentLength := None;
                       bodyFactory := fun n =>
                         let readable := Readable_from bodyInit in
                         Some (new_PonyfillReadableStream n readable) |}
           else Throw Error_UnknownBodyType)%completion.


(* ------------------------------------------------------------------ *)
(** ** The class *)

Record PonyfillBody := {
  bodyInit : JsValue;
  options : PonyfillBodyOptions;
  bodyUsed : bool;
  contentType : option JsString;
  contentLength : option nat;
  bodyType : option BodyInitType.t;
  _bodyFactory : BodyFactory;
  _generatedBody : option PonyfillReadableStream
}.

(** [new PonyfillBody(bodyInit, options)] *)
Definition new_PonyfillBody (bodyInit : JsValue) (options : PonyfillBodyOptions)
  : Completion PonyfillBody :=
  (r <- processBodyInit bodyInit ;;
   Normal {| bodyInit := bodyInit;
             options := options;
             bodyUsed := false;
             contentType := res_contentType r;
             contentLength := res_contentLength r;
             bodyType := res_bodyType r;
             _bodyFactory := bodyFactory r;
             _generatedBody := None |})%completion.

(** The object and what is observed around it: the index handed to the next
    factory call, how many times the stored factory was invoked, which
    streams have flowed already, how many decoders were created. *)
Record Machine := {
  this : PonyfillBody;
  created : nat;
  factory_calls : nat;
  flowed : list StreamRef;
  decoders : nat
}.

Definition boot (b : PonyfillBody) : Machine :=
  {| this := b; created := 0; factory_calls := 0; flowed := []; decoders := 0 |}.

Definition has_flowed (s : PonyfillReadableStream) (m : Machine) : bool :=
  existsb (StreamRef_eqb (stream_ref s)) (flowed m).

Definition set_flowed (s : PonyfillReadableStream) (m : Machine) : Machine :=
  {| this := this m; created := created m; factory_calls := factory_calls m;
     flowed := stream_ref s :: flowed m; decoders := decoders m |}.

Definition new_decoder (m : Machine) : Machine :=
  {| this := this m; created := created m; factory_calls := factory_calls m;
     flowed := flowed m; decoders := S (decoders m) |}.

Definition set_generatedBody (body : option PonyfillReadableStream)
                             (b : PonyfillBody) : PonyfillBody :=
  {| bodyInit := bodyInit b; options := options b; bodyUsed := bodyUsed b;
     contentType := contentType b; contentLength := contentLength b;
     bodyType := bodyType b; _bodyFactory := _bodyFactory b;
     _generatedBody := body |}.

(** Promise-returning methods run to completion, one call after the other. *)
Definition Async (A : Type) := Machine -> Outcome A * Machine.

Definition resolve {A} (a : A) : Async A := fun m => (Resolved a, m).

(** A throw inside an async function rejects its promise. *)
Definition settle {A} (c : Completion A) : Async A :=
  fun m => match c with
           | Normal a => (Resolved a, m)
           | Throw e => (Rejected e, m)
           end.

Definition await {A B} (p : Async A) (k : A -> Async B) : Async B :=
  fun m => match p m with
           | (Resolved a, m') => k a m'
           | (Rejected e, m') => (Rejected e, m')
           | (Pending, m') => (Pending, m')
           end.

Declare Scope async_scope.
Delimit Scope async_scope with async.
Notation "x <~ p ;; k" := (await p (fun x => k))
  (at level 100, p at next level, right associativity) : async_scope.

Definition generateBody (m : Machine) : option PonyfillReadableStream * Machine :=
  match _generatedBody (this m) with
  | Some s => (Some s, m)
  | None =>
      let body := _bodyFactory (this m) (created m) in
      (body, {| this := set_generatedBody body (this m);
                created := S (created m);
                factory_calls := S (factory_calls m);
                flowed := flowed m;
                decoders := decoders m |})
  end.

(** The view returned by the [body] getter: a new Proxy over
    [_body.readable] whose lookups go to the stream wrapper first. *)
Record BodyProxy := {
  proxy_target : Readable;
  ponyfillReadableStream : PonyfillReadableStream
}.

Definition body (m : Machine) : option BodyProxy * Machine :=
  let (_body, m') := generateBody m in
  match _body with
  | Some s => (Some {| proxy_target := readable s; ponyfillReadableStream := s |}, m')
  | None => (None, m')
  end.

(** Listeners attached to a readable that has already ended or failed are
    never called. *)
Definition _collectChunksFromReadable : Async (list Bytes) :=
  fun m =>
    let (_body, m') := generateBody m in
    match _body with
    | Some s =>
        if has_flowed s m' then (Pending, m')
        else
          let (chunks, failure) := readable_emits pf (readable s) in
          match failure with
          | None => (Resolved chunks, set_flowed s m')
          | Some e => (Rejected e, set_flowed s m')
          end
    | None => (Resolved [], m')
    end.

(** Modelled from the spec: [blob.arrayBuffer()] and [blob.buffer()] of
    Blob.js (not under src) give the content of the blob. *)
Definition blob_arrayBuffer (v : JsValue) : Async JsValue :=
  match v with
  | JPonyfillBlob b =>
      match blob_bytes b with
      | Some x => resolve (JArrayBuffer x)
      | None => settle (Throw TypeError_invalid_argument)
      end
  | _ => settle (Throw TypeError_invalid_argument)
  end.

Definition blob_buffer (v : JsValue) : Async JsValue :=
  match v with
  | JPonyfillBlob b =>
      match blob_bytes b with
      | Some x => resolve (JBuffer x)
      | None => settle (Throw TypeError_invalid_argument)
      end
  | _ => settle (Throw TypeError_invalid_argument)
  end.

Definition blob : Async JsValue :=
  fun m =>
    let self := this m in
    if bodyType_is (bodyType self) BodyInitType.Blob then
      resolve (bodyInit self) m
    else if bodyType_is (bodyType self) BodyInitType.String
         || bodyType_is (bodyType self) BodyInitType.Buffer
         || bodyType_is (bodyType self) BodyInitType.Uint8Array then
      let bodyInitTyped := bodyInit self in
      resolve (JPonyfillBlob (new_PonyfillBlob [bodyInitTyped]
                                (or_empty (contentType self)))) m
    else if bodyType_is (bodyType self) BodyInitType.ArrayBuffer then
      let bodyInitTyped := bodyInit self in
      (buf <~ settle (Buffer_from bodyInitTyped) ;;
       resolve (JPonyfillBlob (new_PonyfillBlob [JBuffer buf]
                                 (or_empty (contentType self)))))%async m
    else
      (chunks <~ _collectChunksFromReadable ;;
       resolve (JPonyfillBlob (new_PonyfillBlob (map JBuffer chunks)
                                 (or_empty (contentType self)))))%async m.

Definition arrayBuffer : Async JsValue :=
  fun m =>
    let self := this m in
    if bodyType_is (bodyType self) BodyInitType.ArrayBuffer then
      resolve (bodyInit self) m
    else if bodyType_is (bodyType self) BodyInitType.Uint8Array
         || bodyType_is (bodyType self) BodyInitType.Buffer then
      let typedBodyInit := bodyInit self in
      settle (uint8ArrayToArrayBuffer typedBodyInit) m
    else if bodyType_is (bodyType self) BodyInitType.String then
      settle (buffer <- Buffer_from (bodyInit self) ;;
              uint8ArrayToArrayBuffer (JBuffer buffer))%completion m
    else if bodyType_is (bodyType self) BodyInitType.Blob then
      blob_arrayBuffer (bodyInit self) m
    else
      (b <~ blob ;; blob_arrayBuffer b)%async m.

Definition buffer : Async JsValue :=
  fun m =>
    let self := this m in
    if bodyType_is (bodyType self) BodyInitType.Buffer then
      resolve (bodyInit self) m
    else if bodyType_is (bodyType self) BodyInitType.String then
      settle (b <- Buffer_from (bodyInit self) ;; Normal (JBuffer b))%completion m
    else if bodyType_is (bodyType self) BodyInitType.Uint8Array
         || bodyType_is (bodyType self) BodyInitType.ArrayBuffer then
      let bodyInitTyped := bodyInit self in
      settle (b <- Buffer_from bodyInitTyped ;; Normal (JBuffer b))%completion m
    else if bodyType_is (bodyType self) BodyInitType.Blob then
      if instanceof_PonyfillBlob (bodyInit self) then
        blob_buffer (bodyInit self) m
      else
        let bodyInitTyped := bodyInit self in
        (ab <~ blob_arrayBuffer bodyInitTyped ;;
         settle (b <- Buffer_from ab ;; Normal (JBuffer b))%completion)%async m
    else
      (chunks <~ _collectChunksFromReadable ;;
       resolve (JBuffer (List.concat chunks)))%async m.

(** [buffer.toString('utf-8')] *)
Definition Buffer_toString (v : JsValue) : Completion JsValue :=
  match v with
  | JBuffer b => Normal (JString (utf8_decode b))
  | _ => Throw TypeError_invalid_argument
  end.

Definition text : Async JsValue :=
  fun m =>
    let self := this m in
    if bodyType_is (bodyType self) BodyInitType.String then
      resolve (bodyInit self) m
    else
      (b <~ buffer ;; settle (Buffer_toString b))%async m.

(** [JSON.parse(text)]: the argument is coerced to a string first. *)
Definition js_JSON_parse (v : JsValue) : Completion Json :=
  match JSON_parse pf (js_toString v) with
  | Some j => Normal j
  | None => Throw SyntaxError_JSON
  end.

Definition json : Async Json :=
  (t <~ text ;; settle (js_JSON_parse t))%async.

(** *** formData *)

(** The promise built in [formData]: only its first settlement counts. *)
Inductive Settlement :=
| Unsettled
| Fulfilled
| Failed (e : JsError).

(** The promise and the collection the handlers share. *)
Record Decoding := {
  settlement : Settlement;
  collection : PonyfillFormData
}.

Definition decoding_start : Decoding :=
  {| settlement := Unsettled; collection := [] |}.

Definition promise_reject (e : JsError) (d : Decoding) : Decoding :=
  match settlement d with
  | Unsettled => {| settlement := Failed e; collection := collection d |}
  | _ => d
  end.

Definition promise_resolve (d : Decoding) : Decoding :=
  match settlement d with
  | Unsettled => {| settlement := Fulfilled; collection := collection d |}
  | _ => d
  end.

Definition decoding_set (name : JsString) (v : FormDataEntryValue) (d : Decoding)
  : Decoding :=
  {| settlement := settlement d; collection := formData_set name v (collection d) |}.

(** The listeners registered on the busboy instance. The file listener is
    run over the whole life of the file stream. *)
Definition on_event (formDataLimits : FormDataLimits) (d : Decoding)
                    (ev : BusboyEvent) : Decoding :=
  match ev with
  | on_field name value nameTruncated valueTruncated =>
      let d1 := if nameTruncated
                then promise_reject (Error_FieldNameSize (fieldNameSize formDataLimits)) d
                else d in
      let d2 := if valueTruncated
                then promise_reject (Error_FieldValueSize (fieldSize formDataLimits)) d1
                else d1 in
      decoding_set name (EntryString value) d2
  | on_fieldsLimit =>
      promise_reject (Error_FieldsLimit (fields formDataLimits)) d
  | on_file name fileStream filename mimeType =>
      let d1 := if fs_limit fileStream
                then promise_reject (Error_FileSizeLimit (fileSize formDataLimits)) d
                else d in
      let chunks := fs_data fileStream in
      let d2 := if fs_truncated fileStream
                then promise_reject (Error_FileSizeLimit (fileSize formDataLimits)) d1
                else d1 in
      let file := {| file_chunks := chunks; file_name := filename;
                     file_type := mimeType |} in
      decoding_set name (EntryFile file) d2
  | on_filesLimit =>
      promise_reject (Error_FilesLimit (files formDataLimits)) d
  | on_partsLimit =>
      promise_reject (Error_PartsLimit (parts formDataLimits)) d
  | on_close => promise_resolve d
  | on_error err => promise_reject err d
  end.

Definition decode (formDataLimits : FormDataLimits) (events : list BusboyEvent)
  : Decoding :=
  fold_left (on_event formDataLimits) events decoding_start.

(** The promise resolves with the collection object itself. *)
Definition decoding_outcome (d : Decoding) : Outcome JsValue :=
  match settlement d with
  | Unsettled => Pending
  | Fulfilled => Resolved (JFormData (collection d))
  | Failed e => Rejected e
  end.

Definition formData (opts : option FormDataLimits) : Async JsValue :=
  fun m =>
    if bodyType_is (bodyType (this m)) BodyInitType.FormData then
      resolve (bodyInit (this m)) m
    else
      let formData : PonyfillFormData := [] in
      let (_body, m1) := generateBody m in
      match _body with
      | None => resolve (JFormData formData) m1
      | Some s =>
          let formDataLimits :=
            spread_limits (formDataLimits (options (this m1))) opts in
          let content_type := or_empty (contentType (this m1)) in
          let m2 := new_decoder m1 in
          match busboy_throws pf content_type formDataLimits with
          | Some e => (Rejected e, m2)
          | None =>
              let events :=
                if has_flowed s m2 then
                  (* [pipe] on a readable that has ended ends the decoder
                     at once; on one that has failed it does nothing *)
                  match snd (readable_emits pf (readable s)) with
                  | None => busboy_emits pf content_type formDataLimits ([], None)
                  | Some _ => []
                  end
                else busboy_emits pf content_type formDataLimits
                       (readable_emits pf (readable s)) in
              (decoding_outcome (decode formDataLimits events), set_flowed s m2)
          end
      end.

(** *** Call sequences *)

Inductive Call :=
| get_body
| call_arrayBuffer
| call_blob
| call_formData (opts : option FormDataLimits)
| call_buffer
| call_json
| call_text.

Inductive Answer :=
| answer_body (b : option BodyProxy)
| answer_value (o : Outcome JsValue)
| answer_json (o : Outcome Json).

Definition perform (c : Call) (m : Machine) : Answer * Machine :=
  match c with
  | get_body => let (r, m') := body m in (answer_body r, m')
  | call_arrayBuffer => let (r, m') := arrayBuffer m in (answer_value r, m')
  | call_blob => let (r, m') := blob m in (answer_value r, m')
  | call_formData opts => let (r, m') := formData opts m in (answer_value r, m')
  | call_buffer => let (r, m') := buffer m in (answer_value r, m')
  | call_json => let (r, m') := json m in (answer_json r, m')
  | call_text => let (r, m') := text m in (answer_value r, m')
  end.

Fixpoint perform_all (cs : list Call) (m : Machine) : list Answer * Machine :=
  match cs with
  | [] => ([], m)
  | c :: rest =>
      let (a, m1) := perform c m in
      let (r, m2) := perform_all rest m1 in
      (a :: r, m2)
  end.

End Body.

(* ------------------------------------------------------------------ *)
(** ** The multipart decoder, and platforms to run examples on *)

(** A part of a multipart body: a field with its name and value, or a file
    with its field name, file name, media type and the chunks its content
    arrives in. *)
Inductive MultipartPart :=
| part_field (name value : JsString)
| part_file (name filename mimeType : JsString) (chunks : list Bytes).


(** The documented default of [fieldSize]: 1MB. The default of [fileSize]
    is Infinity, an absent limit. *)
Definition fieldSizeLimit (l : FormDataLimits) : N :=
  match fieldSize l with Some n => n | None => 1048576%N end.

Definition byte_size (s : JsString) : N := N.of_nat (List.length (utf8_encode s)).

(** The first [n] bytes. *)
Fixpoint take_bytes (n : N) (bs : Bytes) : Bytes :=
  match bs with
  | [] => []
  | b :: rest => if (n =? 0)%N then [] else b :: take_bytes (N.pred n) rest
  end.

(** The chunks up to [n] bytes in all. *)
Fixpoint take_chunks (n : N) (chunks : list Bytes) : list Bytes :=
  match chunks with
  | [] => []
  | c :: rest =>
      if (n =? 0)%N then []
      else take_bytes n c :: take_chunks (n - N.of_nat (List.length c)) rest
  end.

(** The decoder counts the bytes of a part as they arrive, keeps them up to
    the limit, and marks the part as truncated once the count has reached
    the limit: a part of exactly [limit] bytes is marked, an empty one is
    not. *)
Definition reached (limit size : N) : bool :=
  (0 <? size)%N && (limit <=? size)%N.

(** How the multipart decoder (busboy, a dependency of the package, not
    under src) reports one part, under the size limits [fieldSizeLimit] and
    [fileSizeLimit]. A field is reported when its part ends, with its name
    as it is (a multipart field name is never cut and [nameTruncated] is
    always false) and its value cut at the limit. A file is reported with
    the stream of its content, which emits 'limit' and is [truncated] when
    the content has reached the limit. *)
Definition part_event (fieldSizeLimit : N) (fileSizeLimit : option N)
                      (p : MultipartPart) : BusboyEvent :=
  match p with
  | part_field name value =>
      on_field name
               (utf8_decode (take_bytes fieldSizeLimit (utf8_encode value)))
               false
               (reached fieldSizeLimit (byte_size value))
  | part_file name filename mimeType chunks =>
      match fileSizeLimit with
      | None =>
          on_file name {| fs_limit := false; fs_data := chunks;
                          fs_truncated := false |} filename mimeType
      | Some n =>
          let cut := reached n (N.of_nat (List.length (List.concat chunks))) in
          on_file name {| fs_limit := cut; fs_data := take_chunks n chunks;
                          fs_truncated := cut |} filename mimeType
      end
  end.

(** The events of the multipart decoder on a well-formed body with the
    parts [ps], when no limit on the number of fields, files, parts or
    header pairs is set: one event per part, in order, then 'close'. *)
Definition busboy_multipart (fieldSizeLimit : N) (fileSizeLimit : option N)
                            (ps : list MultipartPart) : list BusboyEvent :=
  map (part_event fieldSizeLimit fileSizeLimit) ps ++ [on_close].

(** Modelled from the spec: the parts [getStreamFromFormData] of FormData.js
    (not under src) encodes a form-data set into, one per entry, in order. *)
Definition parts_of_formData (fd : PonyfillFormData) : list MultipartPart :=
  map (fun e => match snd e with
                | EntryString value => part_field (fst e) value
                | EntryFile f =>
                    part_file (fst e) (file_name f) (file_type f) (file_chunks f)
                end) fd.

(** An event that leaves the promise unsettled. *)
Definition quiet (ev : BusboyEvent) : bool :=
  match ev with
  | on_field _ _ nameTruncated valueTruncated =>
      negb nameTruncated && negb valueTruncated
  | on_file _ fileStream _ _ =>
      negb (fs_limit fileStream) && negb (fs_truncated fileStream)
  | _ => false
  end.

(** The entry a field or file event stores. *)
Definition entry_of (ev : BusboyEvent) : option (JsString * FormDataEntryValue) :=
  match ev with
  | on_field name value _ _ => Some (name, EntryString value)
  | on_file name fileStream filename mimeType =>
      Some (name, EntryFile {| file_chunks := fs_data fileStream;
                               file_name := filename; file_type := mimeType |})
  | _ => None
  end.

Fixpoint entries_of (events : list BusboyEvent)
  : list (JsString * FormDataEntryValue) :=
  match events with
  | [] => []
  | ev :: rest =>
      match entry_of ev with
      | Some e => e :: entries_of rest
      | None => entries_of rest
      end
  end.

(** A multi-map that keeps every entry, in order. *)
Definition appended (entries : list (JsString * FormDataEntryValue))
  : PonyfillFormData :=
  fold_left (fun fd e => formData_append (fst e) (snd e) fd) entries [].

(** The last entry reported under a name. *)
Fixpoint last_entry (name : JsString)
                    (entries : list (JsString * FormDataEntryValue))
                    (found : option FormDataEntryValue)
  : option FormDataEntryValue :=
  match entries with
  | [] => found
  | (n, v) :: rest =>
      last_entry name rest (if name_eqb n name then Some v else found)
  end.

(** The names of a list, each at its first place. *)
Definition first_occurrences (names : list JsString) : list JsString :=
  fold_left (fun acc n => if existsb (name_eqb n) acc then acc else acc ++ [n])
            names [].

Fixpoint join_params (p : list (JsString * JsString)) : JsString :=
  match p with
  | [] => []
  | [(k, v)] => k ++ js "=" ++ v
  | (k, v) :: rest => k ++ js "=" ++ v ++ js "&" ++ join_params rest
  end.

(** A platform for examples: parameters without reserved characters, a
    parser that knows the three JSON literals, readables that emit the buffer
    or string they were built from, a decoder that emits [events]. *)
Definition scripted_platform (events : list BusboyEvent) : Platform :=
  {| random_boundary := js "x7k2m9";
     URLSearchParams_toString := join_params;
     ToString_object := fun _ => js "[object Object]";
     JSON_parse := fun s =>
       if name_eqb s (js "null") then Some Json_null
       else if name_eqb s (js "true") then Some (Json_bool true)
       else if name_eqb s (js "false") then Some (Json_bool false)
       else None;
     readable_emits := fun r =>
       match r with
       | Readable_from (JBuffer b) => ([b], None)
       | Readable_from (JString s) => ([utf8_encode s], None)
       | _ => ([], None)
       end;
     busboy_throws := fun _ _ => None;
     busboy_emits := fun _ _ _ => events |}.

(** How the loopback platform below carries a part through a stream: a tag
    chunk, then name and value, or name, file name, media type and content,
    each as one chunk. The stream opens with a chunk of its own. *)
Definition opening : Bytes := [x02].

Definition framed (p : MultipartPart) : list Bytes :=
  match p with
  | part_field name value => [[x00]; utf8_encode name; utf8_encode value]
  | part_file name filename mimeType chunks =>
      [[x01]; utf8_encode name; utf8_encode filename; utf8_encode mimeType;
       List.concat chunks]
  end.

Definition is_field_tag (tag : Bytes) : bool :=
  match tag with
  | [b] => Byte.eqb b x00
  | _ => false
  end.

Definition is_opening (chunk : Bytes) : bool :=
  match chunk with
  | [b] => Byte.eqb b x02
  | _ => false
  end.

Fixpoint parts_of_frames (chunks : list Bytes) : list MultipartPart :=
  match chunks with
  | tag :: n :: v :: rest =>
      if is_field_tag tag then
        part_field (utf8_decode n) (utf8_decode v) :: parts_of_frames rest
      else
        match rest with
        | t :: d :: rest' =>
            part_file (utf8_decode n) (utf8_decode v) (utf8_decode t) [d]
            :: parts_of_frames rest'
        | _ => []
        end
  | _ => []
  end.

(** A platform for examples on which a form-data set goes through the
    stream and back: [getStreamFromFormData] emits the opening chunk and
    the frames of the parts of the set it was given, and the decoder reads
    the parts back from the chunks it is fed and reports them as
    [busboy_multipart] says; input that does not open as a form is an
    error. A readable built from a buffer emits it. *)
Definition loopback_platform : Platform :=
  {| random_boundary := js "x7k2m9";
     URLSearchParams_toString := join_params;
     ToString_object := fun _ => js "[object Object]";
     JSON_parse := fun _ => None;
     readable_emits := fun r =>
       match r with
       | getStreamFromFormData (JFormData fd) _ =>
           (opening :: List.concat (map framed (parts_of_formData fd)), None)
       | Readable_from (JBuffer b) => ([b], None)
       | _ => ([], None)
       end;
     busboy_throws := fun _ _ => None;
     busboy_emits := fun _ l r =>
       match r with
       | (first :: chunks, None) =>
           if is_opening first
           then busboy_multipart (fieldSizeLimit l) (fileSize l)
                                 (parts_of_frames chunks)
           else [on_error (Error_platform 0)]
       | ([], None) => [on_error (Error_platform 0)]
       | (_, Some _) => []
       end |}.

Definition no_options : PonyfillBodyOptions := {| formDataLimits := None |}.

(** The bytes a materialized value stands for. *)
Definition content_of (v : JsValue) : option Bytes :=
  match v with
  | JString s => Some (utf8_encode s)
  | JBuffer b | JUint8Array b | JArrayBuffer b => Some b
  | JPonyfillBlob b => blob_bytes b
  | _ => None
  end.

Definition in_memory (v : JsValue) : bool :=
  match v with
  | JString _ | JBuffer _ | JUint8Array _ | JArrayBuffer _ => true
  | _ => false
  end.

(** The value is an object, not a primitive. *)
Definition is_object (v : JsValue) : bool :=
  match v with
  | JNull | JUndefined | JNumber _ | JBoolean _ | JString _ => false
  | _ => true
  end.

(** The value is one of the source variants a body can be built from:
    null or undefined, a string, a Buffer, a stream, a blob of the package or
    of the platform, a typed array or another view, an ArrayBuffer, a
    Readable, a form-data set, a URL-encoded parameter set, an iterable or
    async iterable. An object is none of them because it has a member named
    buffer, stream, sort or forEach. *)
Definition listed_variant (v : JsValue) : bool :=
  match v with
  | JNull | JUndefined | JString _ | JBuffer _ | JPonyfillReadableStream _
  | JPonyfillBlob _ | JBlob _ _ | JUint8Array _ | JArrayBufferView _
  | JArrayBuffer _ | JReadable _ | JFormData _ | JURLSearchParams _ => true
  | JObject o => has_iterator o || has_asyncIterator o
  | JNumber _ | JBoolean _ => false
  end.

(** The object has a member the classifier probes with [in]. *)
Definition probed_member (v : JsValue) : bool :=
  match v with
  | JObject o => has_buffer o || has_stream o || has_sort o || has_forEach o
  | _ => false
  end.

(* ------------------------------------------------------------------ *)
(** ** Vocabulary of the properties *)

(** What [generateBody] reads and writes. *)
Definition core (m : Machine) : PonyfillBody * nat * nat :=
  (this m, created m, factory_calls m).

(** Two objects that differ at most in the memoized stream. *)
Definition frame (b b' : PonyfillBody) : Prop :=
  set_generatedBody None b' = set_generatedBody None b.

(** The state of the memo of a body whose factory yields streams. *)
Definition memo_inv (b : PonyfillBody) (c : PonyfillBody * nat * nat) : Prop :=
  frame b (fst (fst c)) /\
  ((_generatedBody (fst (fst c)) = None /\ snd c = 0) \/
   (exists s, _generatedBody (fst (fst c)) = Some s /\ snd c = 1)).

(** The state of the memo of a body whose factory yields null. *)
Definition null_inv (b : PonyfillBody) (c : PonyfillBody * nat * nat) : Prop :=
  frame b (fst (fst c)) /\ _generatedBody (fst (fst c)) = None.

Definition set_bodyUsed (flag : bool) (m : Machine) : Machine :=
  {| this := {| bodyInit := bodyInit (this m); options := options (this m);
                bodyUsed := flag;
                contentType := contentType (this m);
                contentLength := contentLength (this m);
                bodyType := bodyType (this m);
                _bodyFactory := _bodyFactory (this m);
                _generatedBody := _generatedBody (this m) |};
     created := created m; factory_calls := factory_calls m;
     flowed := flowed m; decoders := decoders m |}.

(** A method that does not look at the flag. *)
Definition flag_blind {A} (p : Machine -> A * Machine) : Prop :=
  forall flag m,
    p (set_bodyUsed flag m) = (fst (p m), set_bodyUsed flag (snd (p m))).

(** A method that creates no decoder. *)
Definition no_decoder {A} (p : Machine -> A * Machine) : Prop :=
  forall m, decoders (snd (p m)) = decoders m.

(** The bytes an in-memory initializer holds. *)
Definition content (init : JsValue) : Bytes :=
  match init with
  | JString s => utf8_encode s
  | JBuffer b | JUint8Array b | JArrayBuffer b => b
  | _ => []
  end.

(** The text of an in-memory initializer: the string itself, or the UTF-8
    decoding of the bytes. *)
Definition text_of (init : JsValue) : JsString :=
  match init with
  | JString s => s
  | _ => utf8_decode (content init)
  end.

(** The collection after storing the entries one by one with [set]. *)
Definition stored (entries : list (JsString * FormDataEntryValue))
                  (fd : PonyfillFormData) : PonyfillFormData :=
  fold_left (fun acc e => formData_set (fst e) (snd e) acc) entries fd.

(** The limits and the content type [formData(opts)] hands to the decoder. *)
Definition call_limits (m : Machine) (opts : option FormDataLimits)
  : FormDataLimits :=
  spread_limits (formDataLimits (options (this m))) opts.

Definition call_content_type (m : Machine) : JsString :=
  or_empty (contentType (this m)).

(** The failure an event brings to an unsettled promise, if any. *)
Definition loud_failure (l : FormDataLimits) (ev : BusboyEvent) : option JsError :=
  match ev with
  | on_field _ _ nameTruncated valueTruncated =>
      if nameTruncated then Some (Error_FieldNameSize (fieldNameSize l))
      else if valueTruncated then Some (Error_FieldValueSize (fieldSize l))
      else None
  | on_fieldsLimit => Some (Error_FieldsLimit (fields l))
  | on_file _ fileStream _ _ =>
      if fs_limit fileStream || fs_truncated fileStream
      then Some (Error_FileSizeLimit (fileSize l))
      else None
  | on_filesLimit => Some (Error_FilesLimit (files l))
  | on_partsLimit => Some (Error_PartsLimit (parts l))
  | on_close => None
  | on_error err => Some err
  end.

(** A [formData(opts)] call that reaches the decoder with a stream that has
    not flowed, and the events the decoder then emits. *)
Definition decoder_runs (pf : Platform) (m : Machine)
                        (opts : option FormDataLimits)
                        (s : PonyfillReadableStream)
                        (events : list BusboyEvent) : Prop :=
  bodyType_is (bodyType (this m)) BodyInitType.FormData = false /\
  fst (generateBody m) = Some s /\
  has_flowed s m = false /\
  busboy_throws pf (call_content_type m) (call_limits m opts) = None /\
  busboy_emits pf (call_content_type m) (call_limits m opts)
               (readable_emits pf (readable s)) = events.



Definition name_limit_2 : FormDataLimits :=
  {| fieldNameSize := Some 2%N; fieldSize := None; fields := None;
     fileSize := None; files := None; parts := None; headerSize := None |}.

Definition value_limit_3 : FormDataLimits :=
  {| fieldNameSize := None; fieldSize := Some 3%N; fields := None;
     fileSize := None; files := None; parts := None; headerSize := None |}.


(** An object whose only member of interest is named sort. *)
Definition sort_object : JsValue :=
  JObject {| has_buffer := false; has_stream := false; has_sort := true;
             has_forEach := false; has_iterator := false;
             has_asyncIterator := false; get_byteLength := None;
             get_type := None; get_size := None |}.

Definition plain_object : JsValue :=
  JObject {| has_buffer := false; has_stream := false; has_sort := false;
             has_forEach := false; has_iterator := false;
             has_asyncIterator := false; get_byteLength := None;
             get_type := None; get_size := None |}.

Section Vocabulary.

Variable pf : Platform.



(** [blob().then(b => b.arrayBuffer())] *)
Definition blob_then_arrayBuffer : Async JsValue :=
  await (blob pf) blob_arrayBuffer.

End Vocabulary.

(* ------------------------------------------------------------------ *)
(** ** URL-scheme dispatch (fetch.ts) *)

Definition BASE64_SUFFIX : JsString := js ";base64".

Definition comma : N := 44.

(** [s.split(',')]: never empty, the empty string gives one empty piece. *)
Fixpoint split_comma (s : JsString) : list JsString :=
  match s with
  | [] => [[]]
  | c :: rest =>
      if (c =? comma)%N then [] :: split_comma rest
      else match split_comma rest with
           | piece :: pieces => (c :: piece) :: pieces
           | [] => [[c]]
           end
  end.

(** [pieces.join(',')] *)
Fixpoint join_comma (pieces : list JsString) : JsString :=
  match pieces with
  | [] => []
  | [p] => p
  | p :: rest => p ++ comma :: join_comma rest
  end.

(** [s.startsWith(prefix)] *)
Fixpoint js_startsWith (prefix s : JsString) : bool :=
  match prefix, s with
  | [], _ => true
  | p :: prefix', c :: s' => (p =? c)%N && js_startsWith prefix' s'
  | _ :: _, [] => false
  end.

(** [s.endsWith(suffix)] *)
Definition js_endsWith (suffix s : JsString) : bool :=
  js_startsWith (rev suffix) (rev s).

(** [s.substring(n)] and [s.slice(0, -n)], on strings whose first and last
    [n] places hold characters of the basic plane. *)
Definition js_substring (n : nat) (s : JsString) : JsString := skipn n s.

Definition js_slice_off_end (n : nat) (s : JsString) : JsString :=
  firstn (List.length s - n) s.

(** [{ status, statusText, headers }] *)
Record ResponseInit := {
  status : nat;
  statusText : JsString;
  headers : list (JsString * JsString)
}.

(** [new PonyfillResponse(body, init)] (Response.js is not under src): a
    response is described by the arguments it was built from. *)
Record PonyfillResponse := {
  response_body : JsValue;
  response_init : option ResponseInit
}.

(** What fetch.ts takes from the platform: [decodeURIComponent] ([None]
    when it throws a URIError), [Buffer.from(data, 'base64url')],
    [fileURLToPath] ([None] when it throws) and [createReadStream]. *)
Record UrlPlatform := {
  decodeURIComponent : JsString -> option JsString;
  Buffer_from_base64url : JsString -> Bytes;
  fileURLToPath : JsString -> option JsString;
  createReadStream : JsString -> nat
}.

Section Fetch.

Variable up : UrlPlatform.

(** [None] when [fileURLToPath] throws. *)
Definition getResponseForFile (url : JsString) : option PonyfillResponse :=
  match fileURLToPath up url with
  | None => None
  | Some path =>
      let readable := createReadStream up path in
      Some {| response_body := JReadable readable; response_init := None |}
  end.

(** [None] when [decodeURIComponent] throws. *)
Definition getResponseForDataUri (url : JsString) : option PonyfillResponse :=
  let (mimeType, datas) :=
    match split_comma (js_substring 5 url) with
    | [] => (js "text/plain", [])
    | mimeType :: datas => (mimeType, datas)
    end in
  match decodeURIComponent up (join_comma datas) with
  | None => None
  | Some data =>
      if js_endsWith BASE64_SUFFIX mimeType then
        let buffer := Buffer_from_base64url up data in
        let realMimeType :=
          js_slice_off_end (List.length BASE64_SUFFIX) mimeType in
        let file := new_PonyfillBlob [JBuffer buffer] realMimeType in
        Some {| response_body := JPonyfillBlob file;
                response_init := Some {| status := 200;
                                         statusText := js "OK";
                                         headers := [] |} |}
      else
        Some {| response_body := JString data;
                response_init :=
                  Some {| status := 200;
                          statusText := js "OK";
                          headers := [(js "content-type", mimeType)] |} |}
  end.

(** Where a request ends: answered here, failed here, or handed to one of
    the two transports. *)
Inductive Fetched :=
| responded (r : PonyfillResponse)
| thrown
| by_fetchCurl (url : JsString)
| by_fetchNodeHttp (url : JsString).

(** [fetchPonyfill] on a request with that url; [libcurl] is whether
    [globalThis.libcurl] is set. *)
Definition fetchPonyfill (libcurl : bool) (url : JsString) : Fetched :=
  if js_startsWith (js "data:") url then
    match getResponseForDataUri url with
    | Some response => responded response
    | None => thrown
    end
  else if js_startsWith (js "file:") url then
    match getResponseForFile url with
    | Some response => responded response
    | None => thrown
    end
  else if libcurl then by_fetchCurl url
  else by_fetchNodeHttp url.

End Fetch.

(* ------------------------------------------------------------------ *)
(** ** More vocabulary *)

(** The text before the first comma, and the text after it (empty when
    there is no comma). *)
Fixpoint before_comma (s : JsString) : JsString :=
  match s with
  | [] => []
  | c :: rest => if (c =? comma)%N then [] else c :: before_comma rest
  end.

Fixpoint after_comma (s : JsString) : JsString :=
  match s with
  | [] => []
  | c :: rest => if (c =? comma)%N then rest else after_comma rest
  end.

(** The calls that turn the body into a value. *)
Definition materialization (c : Call) : bool :=
  match c with
  | call_arrayBuffer | call_blob | call_buffer | call_json | call_text => true
  | get_body | call_formData _ => false
  end.

(** The tags whose methods answer from the initializer. *)
Definition answers_from_memory (bt : option BodyInitType.t) : bool :=
  match bt with
  | Some BodyInitType.String | Some BodyInitType.Buffer
  | Some BodyInitType.Uint8Array | Some BodyInitType.ArrayBuffer
  | Some BodyInitType.Blob => true
  | _ => false
  end.

(** Two states of one object that show a caller the same thing: the same
    fields apart from the memo, the same streams flowed, the same stream at
    the next [generateBody]. *)
Definition alike (m m' : Machine) : Prop :=
  frame (this m) (this m') /\
  flowed m = flowed m' /\
  fst (generateBody m) = fst (generateBody m').

(** A continuation whose answer does not depend on the state. *)
Definition state_free {A} (k : Async A) : Prop :=
  forall m m', fst (k m) = fst (k m').

(** A platform whose readables all emit [chunks] and then end or fail, and
    whose decoder refuses every content type when [refusal] is set. *)
Definition chunked_platform (chunks : list Bytes) (failure : option JsError)
                            (refusal : option JsError) : Platform :=
  {| random_boundary := js "x7k2m9";
     URLSearchParams_toString := join_params;
     ToString_object := fun _ => js "[object Object]";
     JSON_parse := fun _ => None;
     readable_emits := fun _ => (chunks, failure);
     busboy_throws := fun _ _ => refusal;
     busboy_emits := fun _ _ _ => [on_close] |}.

(** A platform for data URLs that decodes nothing: the text is taken as it
    is and its code points are the bytes. *)
Definition plain_url_platform : UrlPlatform :=
  {| decodeURIComponent := fun s => Some s;
     Buffer_from_base64url := fun s => map nbyte s;
     fileURLToPath := fun s => Some (js_substring 7 s);
     createReadStream := fun _ => 0 |}.

Definition file_limit_10 : FormDataLimits :=
  {| fieldNameSize := None; fieldSize := None; fields := None;
     fileSize := Some 10%N; files := None; parts := None; headerSize := None |}.

(** A Unicode scalar value: a code point that is not a surrogate. *)
Definition scalar (c : N) : bool :=
  (c <=? 0x10FFFF)%N && negb (is_surrogate c).

(** The decoder run over some bytes: what it emits and the state it is
    left in. *)
Fixpoint utf8_run (st : Utf8State) (bs : Bytes) : list N * Utf8State :=
  match bs with
  | [] => ([], st)
  | b :: rest =>
      let r := utf8_step st (Byte.to_N b) in
      let r' := utf8_run (snd r) rest in
      (fst r ++ fst r', snd r')
  end.

(** [p] holds of the [2^k] numbers from [base * 2^k] on. *)
Fixpoint all_below (k : nat) (base : N) (p : N -> bool) : bool :=
  match k with
  | O => p base
  | S k' => all_below k' (2 * base) p && all_below k' (2 * base + 1) p
  end.

(** The first three bytes of a four-byte sequence, from the code point
    without its six low bits, and the last byte, from those six bits. *)
Definition utf8_lead3 (h : N) : Bytes :=
  [nbyte (N.lor 0xF0 (N.shiftr h 12));
   nbyte (N.lor 0x80 (N.land (N.shiftr h 6) 0x3F));
   nbyte (N.lor 0x80 (N.land h 0x3F))].

Definition state_is (st : Utf8State) (c : N) (needed : nat) : bool :=
  (u_cp st =? c)%N && Nat.eqb (u_needed st) needed
  && (u_lower st =? 0x80)%N && (u_upper st =? 0xBF)%N.

(** After the three bytes the decoder holds [h] and waits for one byte. *)
Definition lead3_ok (h : N) : bool :=
  negb (between 0x400 h 0x43FF) ||
  match utf8_run utf8_init (utf8_lead3 h) with
  | ([], st) => state_is st h 1
  | _ => false
  end.

(** The last byte is a continuation byte that carries [d]. *)
Definition tail_ok (d : N) : bool :=
  let b := Byte.to_N (nbyte (N.lor 0x80 d)) in
  between 0x80 b 0xBF && (N.land b 0x3F =? d)%N.

(** A code point below 10000 comes back from its encoding. *)
Definition short_ok (c : N) : bool :=
  negb (scalar c) ||
  match utf8_run utf8_init (utf8_encode_cp c) with
  | ([c'], st) => (c' =? c)%N && state_is st 0 0
  | _ => false
  end.
(* ------------------------------------------------------------------ *)
(** * Properties *)

Section Memoization.

Variable pf : Platform.

Lemma generateBody_core m m' :
  core m = core m' ->
  fst (generateBody m) = fst (generateBody m') /\
  core (snd (generateBody m)) = core (snd (generateBody m')).
Proof.
  unfold core, generateBody. intros H. inversion H as [[Ht Hc Hf]].
  rewrite Ht. destruct (_generatedBody (this m')); simpl.
  - rewrite Ht, Hc, Hf. auto.
  - rewrite Hc, Hf. auto.
Qed.

Lemma generateBody_memo m s :
  _generatedBody (this m) = Some s -> generateBody m = (Some s, m).
Proof. unfold generateBody. intros ->. reflexivity. Qed.

Lemma collect_core m :
  core (snd (_collectChunksFromReadable pf m)) = core (snd (generateBody m)).
Proof.
  unfold _collectChunksFromReadable.
  destruct (generateBody m) as [[s|] m1]; simpl; [|reflexivity].
  destruct (has_flowed s m1); [reflexivity|].
  destruct (readable_emits pf (readable s)) as [chunks [e|]]; reflexivity.
Qed.

Lemma blob_arrayBuffer_core v m : snd (blob_arrayBuffer v m) = m.
Proof. destruct v; simpl; try reflexivity. destruct (blob_bytes b); reflexivity. Qed.

Lemma blob_buffer_core v m : snd (blob_buffer v m) = m.
Proof. destruct v; simpl; try reflexivity. destruct (blob_bytes b); reflexivity. Qed.

Lemma settle_snd A (c : Completion A) m : snd (settle c m) = m.
Proof. destruct c; reflexivity. Qed.

Lemma blob_effect m :
  core (snd (blob pf m)) = core m \/
  core (snd (blob pf m)) = core (snd (generateBody m)).
Proof.
  unfold blob.
  destruct (bodyType_is _ BodyInitType.Blob); [left; reflexivity|].
  destruct (_ || _ || _); [left; reflexivity|].
  destruct (bodyType_is _ BodyInitType.ArrayBuffer).
  - left. unfold await. destruct (settle _ m) as [[a|e|] m'] eqn:E;
      pose proof (settle_snd (Buffer_from (bodyInit (this m))) m) as S;
      rewrite E in S; simpl in S; subst; reflexivity.
  - right. unfold await. rewrite <- collect_core.
    destruct (_collectChunksFromReadable pf m) as [[a|e|] m']; reflexivity.
Qed.

Lemma await_settle_core A B (c : Completion A) (k : A -> Async B) m :
  (forall a m', core (snd (k a m')) = core m') ->
  core (snd (await (settle c) k m)) = core m.
Proof. intros H. unfold await, settle. destruct c; simpl; auto. Qed.

Lemma arrayBuffer_effect m :
  core (snd (arrayBuffer pf m)) = core m \/
  core (snd (arrayBuffer pf m)) = core (snd (generateBody m)).
Proof.
  unfold arrayBuffer.
  destruct (bodyType_is _ BodyInitType.ArrayBuffer); [left; reflexivity|].
  destruct (_ || _); [left; rewrite settle_snd; reflexivity|].
  destruct (bodyType_is _ BodyInitType.String); [left; rewrite settle_snd; reflexivity|].
  destruct (bodyType_is _ BodyInitType.Blob);
    [left; rewrite blob_arrayBuffer_core; reflexivity|].
  unfold await. destruct (blob_effect m) as [H|H];
    destruct (blob pf m) as [[a|e|] m']; simpl in *;
    rewrite ?blob_arrayBuffer_core; auto.
Qed.

Lemma buffer_effect m :
  core (snd (buffer pf m)) = core m \/
  core (snd (buffer pf m)) = core (snd (generateBody m)).
Proof.
  unfold buffer.
  destruct (bodyType_is _ BodyInitType.Buffer); [left; reflexivity|].
  destruct (bodyType_is _ BodyInitType.String); [left; rewrite settle_snd; reflexivity|].
  destruct (_ || _); [left; rewrite settle_snd; reflexivity|].
  destruct (bodyType_is _ BodyInitType.Blob).
  - left. destruct (instanceof_PonyfillBlob _).
    + rewrite blob_buffer_core. reflexivity.
    + unfold await.
      pose proof (blob_arrayBuffer_core (bodyInit (this m)) m) as E.
      destruct (blob_arrayBuffer (bodyInit (this m)) m) as [[a|e|] m'];
        simpl in E; subst; rewrite ?settle_snd; reflexivity.
  - right. unfold await. rewrite <- collect_core.
    destruct (_collectChunksFromReadable pf m) as [[a|e|] m']; reflexivity.
Qed.

Lemma text_effect m :
  core (snd (text pf m)) = core m \/
  core (snd (text pf m)) = core (snd (generateBody m)).
Proof.
  unfold text.
  destruct (bodyType_is _ BodyInitType.String); [left; reflexivity|].
  unfold await. destruct (buffer_effect m) as [H|H];
    destruct (buffer pf m) as [[a|e|] m']; simpl in *;
    rewrite ?settle_snd; auto.
Qed.

Lemma json_effect m :
  core (snd (json pf m)) = core m \/
  core (snd (json pf m)) = core (snd (generateBody m)).
Proof.
  unfold json, await. destruct (text_effect m) as [H|H];
    destruct (text pf m) as [[a|e|] m']; simpl in *;
    rewrite ?settle_snd; auto.
Qed.

Lemma formData_effect opts m :
  core (snd (formData pf opts m)) = core m \/
  core (snd (formData pf opts m)) = core (snd (generateBody m)).
Proof.
  unfold formData.
  destruct (bodyType_is _ BodyInitType.FormData); [left; reflexivity|].
  right. destruct (generateBody m) as [[s|] m1]; simpl; [|reflexivity].
  destruct (busboy_throws pf _ _); reflexivity.
Qed.

Lemma body_effect m : core (snd (body m)) = core (snd (generateBody m)).
Proof. unfold body. destruct (generateBody m) as [[s|] m1]; reflexivity. Qed.

Lemma perform_effect c m :
  core (snd (perform pf c m)) = core m \/
  core (snd (perform pf c m)) = core (snd (generateBody m)).
Proof.
  destruct c; simpl.
  - right. rewrite <- body_effect. destruct (body m); reflexivity.
  - destruct (arrayBuffer_effect m) as [H|H]; destruct (arrayBuffer pf m); auto.
  - destruct (blob_effect m) as [H|H]; destruct (blob pf m); auto.
  - destruct (formData_effect opts m) as [H|H]; destruct (formData pf opts m); auto.
  - destruct (buffer_effect m) as [H|H]; destruct (buffer pf m); auto.
  - destruct (json_effect m) as [H|H]; destruct (json pf m); auto.
  - destruct (text_effect m) as [H|H]; destruct (text pf m); auto.
Qed.

(** An invariant of the part of the state [generateBody] works on is an
    invariant of every call sequence. *)
Lemma perform_all_invariant (I : PonyfillBody * nat * nat -> Prop) :
  (forall m, I (core m) -> I (core (snd (generateBody m)))) ->
  forall cs m, I (core m) -> I (core (snd (perform_all pf cs m))).
Proof.
  intros Hgen. induction cs as [|c cs IH]; intros m Hm; simpl; [exact Hm|].
  pose proof (perform_effect c m) as E.
  destruct (perform pf c m) as [a m1]. simpl in E.
  specialize (IH m1).
  destruct (perform_all pf cs m1) as [r m2]. simpl in *.
  apply IH. destruct E as [E|E]; rewrite E; auto.
Qed.

Lemma frame_refl b : frame b b.
Proof. reflexivity. Qed.

Lemma frame_set b b' g : frame b b' -> frame b (set_generatedBody g b').
Proof. unfold frame. intros H. rewrite <- H. reflexivity. Qed.

Lemma frame_factory b b' : frame b b' -> _bodyFactory b' = _bodyFactory b.
Proof. intros H. apply (f_equal _bodyFactory) in H. exact H. Qed.

Lemma frame_bodyUsed b b' : frame b b' -> bodyUsed b' = bodyUsed b.
Proof. intros H. apply (f_equal bodyUsed) in H. exact H. Qed.

Lemma frame_bodyType b b' : frame b b' -> bodyType b' = bodyType b.
Proof. intros H. apply (f_equal bodyType) in H. exact H. Qed.

Lemma frame_bodyInit b b' : frame b b' -> bodyInit b' = bodyInit b.
Proof. intros H. apply (f_equal bodyInit) in H. exact H. Qed.

Lemma frame_contentType b b' : frame b b' -> contentType b' = contentType b.
Proof. intros H. apply (f_equal contentType) in H. exact H. Qed.

Lemma generateBody_frame b m :
  frame b (this m) -> frame b (this (snd (generateBody m))).
Proof.
  unfold generateBody. intros H.
  destruct (_generatedBody (this m)); simpl; [exact H|].
  apply frame_set. exact H.
Qed.

(** Every call leaves all the fields but the memoized stream as they were. *)
Lemma perform_all_frame b cs m :
  frame b (this m) -> frame b (this (snd (perform_all pf cs m))).
Proof.
  intros H.
  apply (perform_all_invariant (fun c => frame b (fst (fst c)))); [|exact H].
  intros m0. simpl. apply generateBody_frame.
Qed.

(** The factory of a non-null initializer always yields a stream. *)
Lemma processBodyInit_factory v r :
  processBodyInit pf v = Normal r ->
  is_nullish v = false ->
  forall n, exists s, bodyFactory r n = Some s.
Proof.
  unfold processBodyInit. intros H Hn n.
  destruct v; simpl in *; try discriminate;
    repeat match type of H with
           | context [if ?b then _ else _] => destruct b
           end;
    inversion H; subst; simpl; eauto.
Qed.

Lemma processBodyInit_null v r :
  processBodyInit pf v = Normal r ->
  is_nullish v = true ->
  r = {| res_bodyType := None; res_contentType := None;
         res_contentLength := None; bodyFactory := fun _ => None |}.
Proof.
  unfold processBodyInit. intros H Hn. rewrite Hn in H. inversion H. reflexivity.
Qed.

Lemma new_PonyfillBody_inv v o b :
  new_PonyfillBody pf v o = Normal b ->
  exists r, processBodyInit pf v = Normal r /\
            b = {| bodyInit := v; options := o; bodyUsed := false;
                   contentType := res_contentType r;
                   contentLength := res_contentLength r;
                   bodyType := res_bodyType r;
                   _bodyFactory := bodyFactory r;
                   _generatedBody := None |}.
Proof.
  unfold new_PonyfillBody. destruct (processBodyInit pf v) as [r|e]; simpl;
    intros H; inversion H. eauto.
Qed.

Lemma memo_inv_generateBody b m :
  (forall n, exists s, _bodyFactory b n = Some s) ->
  memo_inv b (core m) ->
  memo_inv b (core (snd (generateBody m))) /\
  exists s, generateBody m = (Some s, snd (generateBody m)) /\
            _generatedBody (this (snd (generateBody m))) = Some s /\
            factory_calls (snd (generateBody m)) = 1.
Proof.
  intros Hf [Hfr H]. simpl in *. unfold generateBody.
  destruct H as [[Hg Hc]|[s [Hg Hc]]]; rewrite Hg; simpl.
  - rewrite (frame_factory Hfr).
    destruct (Hf (created m)) as [s Hs]. rewrite Hs. split.
    + split; simpl; [apply frame_set; exact Hfr|].
      right. exists s. split; [reflexivity|lia].
    + exists s. repeat split. lia.
  - split.
    + split; simpl; [exact Hfr|]. right. eauto.
    + exists s. repeat split; assumption.
Qed.

Lemma null_inv_generateBody b m :
  (forall n, _bodyFactory b n = None) ->
  null_inv b (core m) ->
  null_inv b (core (snd (generateBody m))) /\
  fst (generateBody m) = None /\
  factory_calls (snd (generateBody m)) = S (factory_calls m).
Proof.
  intros Hf [Hfr Hg]. simpl in *. unfold generateBody. rewrite Hg. simpl.
  rewrite (frame_factory Hfr), Hf. repeat split. apply frame_set. exact Hfr.
Qed.



End Memoization.



Section Consumption.

Variable pf : Platform.

Lemma flag_blind_generateBody : flag_blind generateBody.
Proof.
  intros flag m. unfold generateBody. simpl.
  destruct (_generatedBody (this m)); reflexivity.
Qed.

Lemma flag_blind_resolve A (a : A) : flag_blind (resolve a).
Proof. intros flag m. reflexivity. Qed.

Lemma flag_blind_settle A (c : Completion A) : flag_blind (settle c).
Proof. intros flag m. destruct c; reflexivity. Qed.

Lemma flag_blind_await A B (p : Async A) (k : A -> Async B) :
  flag_blind p -> (forall a, flag_blind (k a)) -> flag_blind (await p k).
Proof.
  intros Hp Hk flag m. unfold await. rewrite Hp.
  destruct (p m) as [[a|e|] m']; simpl; try reflexivity. apply Hk.
Qed.

Lemma flag_blind_collect : flag_blind (_collectChunksFromReadable pf).
Proof.
  intros flag m. unfold _collectChunksFromReadable.
  rewrite flag_blind_generateBody.
  destruct (generateBody m) as [[s|] m1]; simpl; [|reflexivity].
  unfold has_flowed. simpl.
  destruct (existsb _ (flowed m1)); [reflexivity|].
  destruct (readable_emits pf (readable s)) as [chunks [e|]]; reflexivity.
Qed.

Lemma flag_blind_blob_arrayBuffer v : flag_blind (blob_arrayBuffer v).
Proof.
  destruct v; simpl; try apply flag_blind_settle.
  destruct (blob_bytes b); [apply flag_blind_resolve|apply flag_blind_settle].
Qed.

Lemma flag_blind_blob_buffer v : flag_blind (blob_buffer v).
Proof.
  destruct v; simpl; try apply flag_blind_settle.
  destruct (blob_bytes b); [apply flag_blind_resolve|apply flag_blind_settle].
Qed.

Ltac blind_leaf known :=
  first [ apply flag_blind_resolve
        | apply flag_blind_settle
        | apply flag_blind_collect
        | apply flag_blind_blob_arrayBuffer
        | apply flag_blind_blob_buffer
        | apply known
        | apply flag_blind_await; [blind_leaf known | intros ?; blind_leaf known] ].

Ltac blind_branches known :=
  repeat match goal with
         | |- context [if ?c then _ else _] => destruct c
         end;
  blind_leaf known.

Lemma flag_blind_blob : flag_blind (blob pf).
Proof.
  intros flag m. unfold blob. cbn [this set_bodyUsed bodyType bodyInit contentType].
  blind_branches flag_blind_collect.
Qed.

Lemma flag_blind_arrayBuffer : flag_blind (arrayBuffer pf).
Proof.
  intros flag m. unfold arrayBuffer.
  cbn [this set_bodyUsed bodyType bodyInit contentType].
  blind_branches flag_blind_blob.
Qed.

Lemma flag_blind_buffer : flag_blind (buffer pf).
Proof.
  intros flag m. unfold buffer.
  cbn [this set_bodyUsed bodyType bodyInit contentType].
  blind_branches flag_blind_collect.
Qed.

Lemma flag_blind_text : flag_blind (text pf).
Proof.
  intros flag m. unfold text.
  cbn [this set_bodyUsed bodyType bodyInit contentType].
  blind_branches flag_blind_buffer.
Qed.

Lemma flag_blind_json : flag_blind (json pf).
Proof.
  unfold json. apply flag_blind_await; [apply flag_blind_text|].
  intros a. apply flag_blind_settle.
Qed.

Lemma flag_blind_formData opts : flag_blind (formData pf opts).
Proof.
  intros flag m. unfold formData.
  cbn [this set_bodyUsed bodyType bodyInit].
  destruct (bodyType_is _ _); [reflexivity|].
  rewrite flag_blind_generateBody.
  destruct (generateBody m) as [[s|] m1]; simpl; [|reflexivity].
  destruct (busboy_throws pf _ _); reflexivity.
Qed.

Lemma flag_blind_body : flag_blind body.
Proof.
  intros flag m. unfold body. rewrite flag_blind_generateBody.
  destruct (generateBody m) as [[s|] m1]; reflexivity.
Qed.

(** C2 (amended). [bodyUsed] is false on every new Body, no sequence of
    calls changes it, and no call consults it: whatever the flag holds, a
    call gives the same answer. *)
Theorem bodyUsed_is_never_set :
  (forall init options b,
      new_PonyfillBody pf init options = Normal b -> bodyUsed b = false) /\
  (forall cs m,
      bodyUsed (this (snd (perform_all pf cs m))) = bodyUsed (this m)) /\
  (forall c m flag,
      fst (perform pf c (set_bodyUsed flag m)) = fst (perform pf c m)).
Proof.
  split; [|split].
  - intros init options b H.
    destruct (@new_PonyfillBody_inv pf _ _ _ H) as [r [_ ->]]. reflexivity.
  - intros cs m.
    apply (frame_bodyUsed (b := this m)).
    apply perform_all_frame. apply frame_refl.
  - intros c m flag. destruct c; simpl.
    + rewrite flag_blind_body. destruct (body m); reflexivity.
    + rewrite flag_blind_arrayBuffer. destruct (arrayBuffer pf m); reflexivity.
    + rewrite flag_blind_blob. destruct (blob pf m); reflexivity.
    + rewrite flag_blind_formData. destruct (formData pf opts m); reflexivity.
    + rewrite flag_blind_buffer. destruct (buffer pf m); reflexivity.
    + rewrite flag_blind_json. destruct (json pf m); reflexivity.
    + rewrite flag_blind_text. destruct (text pf m); reflexivity.
Qed.

End Consumption.

Lemma bodyUsed_is_never_set_witness :
  exists b,
    new_PonyfillBody (scripted_platform []) (JString (js "hi")) no_options
      = Normal b /\ bodyUsed b = false.
Proof.
  eexists. split.
  - reflexivity.
  - exact (proj1 (bodyUsed_is_never_set (scripted_platform []))
             (JString (js "hi")) no_options _ eq_refl).
Defined.

(** After [text()] the flag is still false and a second [text()] resolves. *)
Lemma text_twice_on_unused_body :
  exists b,
    new_PonyfillBody (scripted_platform []) (JString (js "hi")) no_options
      = Normal b /\
    let m1 := snd (perform (scripted_platform []) call_text (boot b)) in
    bodyUsed (this m1) = false /\
    fst (perform (scripted_platform []) call_text m1)
      = answer_value (Resolved (JString (js "hi"))).
Proof.
  eexists. split; [reflexivity|]. cbv zeta. split; reflexivity.
Qed.

Section InMemory.

Variable pf : Platform.

(** C3 (amended). For every Body built from a string, Buffer, Uint8Array or
    ArrayBuffer, and after any sequence of earlier calls, [arrayBuffer()],
    [buffer()] and [blob()] followed by the blob's [arrayBuffer()] resolve
    with the same bytes, the bytes of the initializer. [text()] resolves with
    the string itself for a string source and with the UTF-8 decoding of
    those bytes otherwise; its bytes are the same bytes whenever decoding
    and encoding them again gives them back (they are valid UTF-8). *)
Theorem in_memory_materializations_agree init options b :
  in_memory init = true ->
  new_PonyfillBody pf init options = Normal b ->
  forall cs,
    let m := snd (perform_all pf cs (boot b)) in
    fst (arrayBuffer pf m) = Resolved (JArrayBuffer (content init)) /\
    fst (buffer pf m) = Resolved (JBuffer (content init)) /\
    fst (blob_then_arrayBuffer pf m) = Resolved (JArrayBuffer (content init)) /\
    fst (text pf m) = Resolved (JString (text_of init)) /\
    (utf8_encode (utf8_decode (content init)) = content init ->
     content_of (JString (text_of init)) = Some (content init)).
Proof.
  intros Hmem Hnew cs m.
  destruct (@new_PonyfillBody_inv pf _ _ _ Hnew) as [r [Hr Hb]].
  assert (Hfr : frame b (this m)).
  { apply perform_all_frame. apply frame_refl. }
  pose proof (frame_bodyType Hfr) as Hbt.
  pose proof (frame_bodyInit Hfr) as Hbi.
  pose proof (frame_contentType Hfr) as Hct.
  rewrite Hb in Hbt, Hbi, Hct. simpl in Hbt, Hbi, Hct.
  unfold blob_then_arrayBuffer, text, await, arrayBuffer, buffer, blob, await.
  cbv zeta. rewrite Hbt, Hbi, Hct.
  destruct init; try discriminate Hmem;
    unfold processBodyInit in Hr; simpl in Hr; inversion Hr; subst r; simpl;
    rewrite ?app_nil_r; repeat split; try reflexivity;
    try (intros E; rewrite E; reflexivity).
Qed.

End InMemory.

Lemma in_memory_materializations_agree_witness :
  exists b,
    in_memory (JString (js "hi")) = true /\
    new_PonyfillBody (scripted_platform []) (JString (js "hi")) no_options
      = Normal b /\
    fst (buffer (scripted_platform [])
           (snd (perform_all (scripted_platform []) [call_text; get_body] (boot b))))
      = Resolved (JBuffer (content (JString (js "hi")))).
Proof.
  eexists. split; [reflexivity|]. split; [reflexivity|].
  exact (proj1 (proj2
           (@in_memory_materializations_agree (scripted_platform [])
              (JString (js "hi")) no_options _ eq_refl eq_refl
              [call_text; get_body]))).
Defined.

(** A Buffer holding the single byte FF: [text()] gives U+FFFD, whose bytes
    are EF BF BD, while [buffer()] gives FF. A string holding a lone
    surrogate: [text()] gives it back, while decoding the bytes of
    [buffer()] gives U+FFFD. *)
Lemma text_and_buffer_disagree :
  (exists b t u,
     new_PonyfillBody (scripted_platform []) (JBuffer [xff]) no_options
       = Normal b /\
     fst (text (scripted_platform []) (boot b)) = Resolved t /\
     fst (buffer (scripted_platform []) (boot b)) = Resolved u /\
     content_of t = Some [xef; xbf; xbd] /\
     content_of u = Some [xff] /\
     content_of t <> content_of u) /\
  (exists b u,
     new_PonyfillBody (scripted_platform []) (JString [0xD800%N]) no_options
       = Normal b /\
     fst (text (scripted_platform []) (boot b)) = Resolved (JString [0xD800%N]) /\
     fst (buffer (scripted_platform []) (boot b)) = Resolved (JBuffer u) /\
     utf8_decode u <> [0xD800%N]).
Proof.
  split.
  - eexists. eexists. eexists. split; [reflexivity|].
    split; [reflexivity|]. split; [reflexivity|].
    split; [reflexivity|]. split; [reflexivity|]. discriminate.
  - eexists. eexists. split; [reflexivity|].
    split; [reflexivity|]. split; [reflexivity|]. discriminate.
Qed.

Section Collection.

Lemma name_eqb_eq a b : name_eqb a b = true <-> a = b.
Proof.
  unfold name_eqb. destruct (list_eq_dec N.eq_dec a b); split; congruence.
Qed.

Lemma name_eqb_refl a : name_eqb a a = true.
Proof. apply name_eqb_eq. reflexivity. Qed.

Lemma name_eqb_neq a b : a <> b -> name_eqb a b = false.
Proof.
  intros H. destruct (name_eqb a b) eqn:E; [|reflexivity].
  apply name_eqb_eq in E. contradiction.
Qed.

Lemma name_eqb_sym a b : name_eqb a b = name_eqb b a.
Proof.
  destruct (name_eqb b a) eqn:E.
  - apply name_eqb_eq in E. subst. apply name_eqb_refl.
  - apply name_eqb_neq. intros ->. rewrite name_eqb_refl in E. discriminate.
Qed.

Lemma existsb_name_In n l : existsb (name_eqb n) l = true <-> In n l.
Proof.
  rewrite existsb_exists. split.
  - intros [x [Hx E]]. apply name_eqb_eq in E. subst. exact Hx.
  - intros H. exists n. split; [exact H|apply name_eqb_refl].
Qed.

Lemma formData_remove_absent name fd :
  ~ In name (formData_names fd) -> formData_remove name fd = fd.
Proof.
  induction fd as [|[n x] rest IH]; simpl; intros H; [reflexivity|].
  rewrite name_eqb_neq by (intros ->; apply H; left; reflexivity).
  simpl. rewrite IH; [reflexivity|]. intros Hin. apply H. right. exact Hin.
Qed.

Lemma formData_set_names name v fd :
  NoDup (formData_names fd) ->
  formData_names (formData_set name v fd)
  = if existsb (name_eqb name) (formData_names fd)
    then formData_names fd else formData_names fd ++ [name].
Proof.
  induction fd as [|[n x] rest IH]; simpl; intros Hnd; [reflexivity|].
  inversion Hnd as [|? ? Hnotin Hrest]; subst.
  rewrite (name_eqb_sym name n).
  destruct (name_eqb n name) eqn:E; simpl.
  - apply name_eqb_eq in E. subst n.
    rewrite formData_remove_absent by exact Hnotin. reflexivity.
  - rewrite (IH Hrest).
    destruct (existsb (name_eqb name) (formData_names rest)); reflexivity.
Qed.

Lemma formData_set_NoDup name v fd :
  NoDup (formData_names fd) -> NoDup (formData_names (formData_set name v fd)).
Proof.
  intros Hnd. rewrite formData_set_names by exact Hnd.
  destruct (existsb (name_eqb name) (formData_names fd)) eqn:E; [exact Hnd|].
  apply NoDup_app; [exact Hnd|repeat constructor; intros []|].
  intros x Hx [Hy|[]]. subst x.
  apply existsb_name_In in Hx. congruence.
Qed.

Lemma formData_getAll_remove name fd :
  formData_getAll name (formData_remove name fd) = [].
Proof.
  unfold formData_getAll, formData_remove.
  induction fd as [|[n x] rest IH]; simpl; [reflexivity|].
  destruct (name_eqb n name) eqn:E; simpl; [exact IH|].
  rewrite E. exact IH.
Qed.

Lemma formData_getAll_remove_other name other fd :
  other <> name ->
  formData_getAll other (formData_remove name fd) = formData_getAll other fd.
Proof.
  intros Hne. unfold formData_getAll, formData_remove.
  induction fd as [|[n x] rest IH]; simpl; [reflexivity|].
  destruct (name_eqb n name) eqn:E; simpl.
  - apply name_eqb_eq in E. subst n.
    rewrite (name_eqb_neq (fun H => Hne (eq_sym H))). exact IH.
  - destruct (name_eqb n other); simpl; [f_equal|]; exact IH.
Qed.

(** After [set] exactly one entry carries the name. *)
Lemma formData_getAll_set name v fd :
  formData_getAll name (formData_set name v fd) = [v].
Proof.
  induction fd as [|[n x] rest IH]; simpl.
  - unfold formData_getAll. simpl. rewrite name_eqb_refl. reflexivity.
  - destruct (name_eqb n name) eqn:E.
    + unfold formData_getAll. simpl. rewrite name_eqb_refl. simpl. f_equal.
      apply formData_getAll_remove.
    + unfold formData_getAll in *. simpl. rewrite E. exact IH.
Qed.

Lemma formData_getAll_set_other name other v fd :
  other <> name ->
  formData_getAll other (formData_set name v fd) = formData_getAll other fd.
Proof.
  intros Hne. induction fd as [|[n x] rest IH]; simpl.
  - unfold formData_getAll. simpl.
    rewrite (name_eqb_neq (fun H => Hne (eq_sym H))). reflexivity.
  - destruct (name_eqb n name) eqn:E.
    + apply name_eqb_eq in E. subst n. unfold formData_getAll. simpl.
      rewrite (name_eqb_neq (fun H => Hne (eq_sym H))).
      apply formData_getAll_remove_other. exact Hne.
    + unfold formData_getAll in *. simpl.
      destruct (name_eqb n other); simpl; [f_equal|]; exact IH.
Qed.

Lemma promise_reject_collection e d :
  collection (promise_reject e d) = collection d.
Proof. unfold promise_reject. destruct (settlement d); reflexivity. Qed.

Lemma on_event_collection l d ev :
  collection (on_event l d ev)
  = match entry_of ev with
    | Some e => formData_set (fst e) (snd e) (collection d)
    | None => collection d
    end.
Proof.
  destruct ev; simpl; rewrite ?promise_reject_collection; try reflexivity.
  - destruct nameTruncated, valueTruncated;
      rewrite ?promise_reject_collection; reflexivity.
  - destruct (fs_limit fileStream), (fs_truncated fileStream);
      rewrite ?promise_reject_collection; reflexivity.
  - unfold promise_resolve. destruct (settlement d); reflexivity.
Qed.

(** Every field and file event reaches the collection, whatever the state
    of the promise. *)
Lemma fold_on_event_collection l evs d :
  collection (fold_left (on_event l) evs d)
  = stored (entries_of evs) (collection d).
Proof.
  revert d. induction evs as [|ev evs IH]; intros d; simpl; [reflexivity|].
  rewrite IH, on_event_collection.
  destruct (entry_of ev); reflexivity.
Qed.

Lemma stored_names entries fd :
  NoDup (formData_names fd) ->
  NoDup (formData_names (stored entries fd)) /\
  formData_names (stored entries fd)
  = fold_left (fun acc n => if existsb (name_eqb n) acc then acc else acc ++ [n])
              (map fst entries) (formData_names fd).
Proof.
  revert fd. induction entries as [|[n v] rest IH]; intros fd Hnd; simpl.
  - split; [exact Hnd|reflexivity].
  - destruct (IH (formData_set n v fd) (@formData_set_NoDup n v fd Hnd)) as [H1 H2].
    split; [exact H1|]. rewrite H2, formData_set_names by exact Hnd. reflexivity.
Qed.

Lemma last_entry_found name entries v :
  last_entry name entries (Some v)
  = match last_entry name entries None with
    | Some w => Some w
    | None => Some v
    end.
Proof.
  revert v. induction entries as [|[n x] rest IH]; intros v; simpl; [reflexivity|].
  destruct (name_eqb n name); [|apply IH].
  rewrite (IH x). destruct (last_entry name rest None); reflexivity.
Qed.

Lemma stored_getAll name entries fd :
  formData_getAll name (stored entries fd)
  = match last_entry name entries None with
    | Some v => [v]
    | None => formData_getAll name fd
    end.
Proof.
  revert fd. induction entries as [|[n v] rest IH]; intros fd; simpl; [reflexivity|].
  rewrite IH. destruct (name_eqb n name) eqn:E.
  - apply name_eqb_eq in E. subst n. rewrite last_entry_found.
    destruct (last_entry name rest None); [reflexivity|].
    apply formData_getAll_set.
  - destruct (last_entry name rest None); [reflexivity|].
    apply formData_getAll_set_other. intros ->.
    rewrite name_eqb_refl in E. discriminate.
Qed.

(** C6 (amended). The handlers store each completed field or file entry
    with [set]: the decoded collection holds every name once, the names stand
    in the order of their first entry, and under a name that came several
    times only the last entry is kept. *)
Theorem decoded_collection_keeps_last_entry limits events :
  let fd := collection (decode limits events) in
  NoDup (formData_names fd) /\
  formData_names fd = first_occurrences (map fst (entries_of events)) /\
  forall name,
    formData_getAll name fd
    = match last_entry name (entries_of events) None with
      | Some v => [v]
      | None => []
      end.
Proof.
  cbv zeta. unfold decode. rewrite fold_on_event_collection. simpl.
  destruct (@stored_names (entries_of events) [] (NoDup_nil _)) as [H1 H2].
  split; [exact H1|]. split; [exact H2|].
  intros name. rewrite stored_getAll. reflexivity.
Qed.

End Collection.

(** Two fields named a: the first one is replaced, where a multi-map would
    hold both. *)
Lemma repeated_name_is_replaced :
  let events := [on_field (js "a") (js "1") false false;
                 on_field (js "a") (js "2") false false;
                 on_close] in
  decoding_outcome (decode no_limits events)
    = Resolved (JFormData [(js "a", EntryString (js "2"))]) /\
  appended (entries_of events)
    = [(js "a", EntryString (js "1")); (js "a", EntryString (js "2"))] /\
  collection (decode no_limits events) <> appended (entries_of events).
Proof.
  cbv zeta. split; [reflexivity|]. split; [reflexivity|].
  vm_compute. discriminate.
Qed.

Section Limits.

Variable pf : Platform.

Lemma decoding_set_settlement name v d :
  settlement (decoding_set name v d) = settlement d.
Proof. reflexivity. Qed.

(** A quiet event leaves the promise as it is. *)
Lemma on_event_quiet l d ev :
  quiet ev = true -> settlement (on_event l d ev) = settlement d.
Proof.
  destruct ev; simpl; try discriminate.
  - destruct nameTruncated, valueTruncated; simpl; try discriminate. reflexivity.
  - destruct (fs_limit fileStream), (fs_truncated fileStream); simpl;
      try discriminate. reflexivity.
Qed.

Lemma fold_on_event_quiet l evs d :
  forallb quiet evs = true ->
  settlement (fold_left (on_event l) evs d) = settlement d.
Proof.
  revert d. induction evs as [|ev evs IH]; intros d H; simpl in *; [reflexivity|].
  apply andb_true_iff in H. destruct H as [H1 H2].
  rewrite IH by exact H2. apply on_event_quiet. exact H1.
Qed.

Lemma promise_reject_settled e d :
  settlement d <> Unsettled -> promise_reject e d = d.
Proof. unfold promise_reject. destruct (settlement d); congruence. Qed.

(** The first settlement of the promise is final. *)
Lemma on_event_settled l d ev :
  settlement d <> Unsettled -> settlement (on_event l d ev) = settlement d.
Proof.
  intros H.
  assert (R : forall e, promise_reject e d = d)
    by (intros e; apply promise_reject_settled; exact H).
  destruct ev; simpl; rewrite ?R; try reflexivity.
  - destruct nameTruncated, valueTruncated; rewrite ?R; reflexivity.
  - destruct (fs_limit fileStream), (fs_truncated fileStream);
      rewrite ?R; reflexivity.
  - unfold promise_resolve. destruct (settlement d) eqn:E; simpl; congruence.
Qed.

Lemma fold_on_event_settled l evs d :
  settlement d <> Unsettled ->
  settlement (fold_left (on_event l) evs d) = settlement d.
Proof.
  revert d. induction evs as [|ev evs IH]; intros d H; simpl; [reflexivity|].
  rewrite IH; rewrite (@on_event_settled l d ev H); auto.
Qed.

Lemma generateBody_keeps m :
  options (this (snd (generateBody m))) = options (this m) /\
  contentType (this (snd (generateBody m))) = contentType (this m) /\
  flowed (snd (generateBody m)) = flowed m.
Proof.
  unfold generateBody. destruct (_generatedBody (this m)); simpl; auto.
Qed.

Lemma formData_runs_decoder m opts s events :
  decoder_runs pf m opts s events ->
  fst (formData pf opts m)
  = decoding_outcome (decode (call_limits m opts) events).
Proof.
  intros [Hbt [Hg [Hfl [Hthrow Hemit]]]]. unfold formData. rewrite Hbt.
  destruct (generateBody_keeps m) as [Ho [Hc Hw]].
  destruct (generateBody m) as [g m1]. simpl in *. subst g.
  unfold call_limits, call_content_type in *.
  rewrite Ho, Hc, Hthrow.
  replace (has_flowed s (new_decoder m1)) with (has_flowed s m)
    by (unfold has_flowed; simpl; rewrite Hw; reflexivity).
  rewrite Hfl, Hemit. reflexivity.
Qed.

Lemma on_event_loud l d ev e :
  settlement d = Unsettled ->
  loud_failure l ev = Some e ->
  settlement (on_event l d ev) = Failed e.
Proof.
  intros Hd Hl. destruct ev; simpl in *; unfold promise_reject;
    try discriminate; try (rewrite Hd; simpl; congruence).
  - destruct nameTruncated, valueTruncated; simpl; rewrite ?Hd; simpl;
      try discriminate; congruence.
  - destruct (fs_limit fileStream), (fs_truncated fileStream); simpl in *;
      rewrite ?Hd; simpl; try discriminate; congruence.
Qed.

Lemma decode_first_failure l pre ev post e :
  forallb quiet pre = true ->
  loud_failure l ev = Some e ->
  settlement (decode l (pre ++ ev :: post)) = Failed e.
Proof.
  intros Hq Hl. unfold decode. rewrite fold_left_app. cbn [fold_left].
  assert (H0 : settlement (fold_left (on_event l) pre decoding_start) = Unsettled)
    by (rewrite fold_on_event_quiet by exact Hq; reflexivity).
  pose proof (@on_event_loud l _ ev e H0 Hl) as H1.
  rewrite fold_on_event_settled; [exact H1|]. rewrite H1. discriminate.
Qed.







End Limits.



Section Classifier.

Variable pf : Platform.

(** C5. A Body built from a URL-encoded parameter set has the content type
    application/x-www-form-urlencoded;charset=UTF-8 and no content length;
    its stream is built from the serialized string, but [text()] resolves
    with the parameter-set object itself, not with that string. *)
Theorem urlencoded_text_is_the_object p options :
  exists b,
    new_PonyfillBody pf (JURLSearchParams p) options = Normal b /\
    contentType b = Some (js "application/x-www-form-urlencoded;charset=UTF-8") /\
    contentLength b = None /\
    fst (generateBody (boot b))
      = Some (new_PonyfillReadableStream 0
                (Readable_from (JString (URLSearchParams_toString pf p)))) /\
    fst (text pf (boot b)) = Resolved (JURLSearchParams p) /\
    fst (text pf (boot b)) <> Resolved (JString (URLSearchParams_toString pf p)).
Proof.
  eexists. split; [reflexivity|]. simpl.
  repeat split; try reflexivity. discriminate.
Qed.

(** C7. [json()] is [text()] followed by [JSON.parse]: a rejected or pending
    [text()] is passed on, a text that parses resolves with the parsed value,
    a text that does not parse rejects with the SyntaxError. For a string
    Body the text is the string itself. *)
Theorem json_parses_text :
  (forall m,
      json pf m
      = match text pf m with
        | (Resolved t, m') =>
            (match JSON_parse pf (js_toString pf t) with
             | Some j => Resolved j
             | None => Rejected SyntaxError_JSON
             end, m')
        | (Rejected e, m') => (Rejected e, m')
        | (Pending, m') => (Pending, m')
        end) /\
  (forall s options,
      exists b,
        new_PonyfillBody pf (JString s) options = Normal b /\
        fst (text pf (boot b)) = Resolved (JString s) /\
        fst (json pf (boot b))
        = match JSON_parse pf s with
          | Some j => Resolved j
          | None => Rejected SyntaxError_JSON
          end).
Proof.
  split.
  - intros m. unfold json, await.
    destruct (text pf m) as [[t|e|] m']; try reflexivity.
    unfold settle, js_JSON_parse.
    destruct (JSON_parse pf (js_toString pf t)); reflexivity.
  - intros s options. eexists. split; [reflexivity|]. split; [reflexivity|].
    unfold json, await, text, settle, js_JSON_parse. simpl.
    destruct (JSON_parse pf s); reflexivity.
Qed.

(** C9 (amended). For every supported variant construction does not
    raise. An object that is none of them makes construction fail with the
    Error 'Unknown body type' only if it has no member named buffer, stream,
    sort or forEach; an object that has such a member is accepted. A number
    or boolean is outside the parameter type and fails earlier, with the
    TypeError of the first [in] probe. *)
Theorem only_memberless_objects_are_unknown v options :
  (listed_variant v = true ->
   exists b, new_PonyfillBody pf v options = Normal b) /\
  (listed_variant v = false -> is_object v = true ->
   if probed_member v
   then exists b, new_PonyfillBody pf v options = Normal b
   else new_PonyfillBody pf v options = Throw Error_UnknownBodyType) /\
  (listed_variant v = false -> is_object v = false ->
   new_PonyfillBody pf v options = Throw TypeError_in_operator).
Proof.
  unfold new_PonyfillBody, processBodyInit, listed_variant, probed_member.
  destruct v; simpl; repeat split; intros; try discriminate; eauto.
  - destruct o as [b s so fe it ai bl ty sz]; simpl in *.
    destruct b, s, so, fe, it, ai; simpl in *; try discriminate; eauto.
  - destruct o as [b s so fe it ai bl ty sz]; simpl in *.
    destruct b, s, so, fe, it, ai; simpl in *; try discriminate; eauto.
Qed.

End Classifier.

Lemma only_memberless_objects_are_unknown_witness :
  listed_variant plain_object = false /\
  is_object plain_object = true /\
  probed_member plain_object = false /\
  new_PonyfillBody (scripted_platform []) plain_object no_options
    = Throw Error_UnknownBodyType.
Proof.
  split; [reflexivity|]. split; [reflexivity|]. split; [reflexivity|].
  exact (proj1 (proj2 (only_memberless_objects_are_unknown
                         (scripted_platform []) plain_object no_options))
           eq_refl eq_refl).
Defined.

(** The number 5 matches no variant, and construction fails with the
    TypeError of ['buffer' in 5], not with 'Unknown body type'. An object
    that has a member named sort and nothing else matches no variant
    either, and construction succeeds: it gives a String body with the
    URL-encoded content type. *)
Lemma number_and_lookalike_are_not_unknown :
  (listed_variant (JNumber 5) = false /\
   new_PonyfillBody (scripted_platform []) (JNumber 5) no_options
     = Throw TypeError_in_operator /\
   new_PonyfillBody (scripted_platform []) (JNumber 5) no_options
     <> Throw Error_UnknownBodyType) /\
  (listed_variant sort_object = false /\
   exists b,
     new_PonyfillBody (scripted_platform []) sort_object no_options = Normal b /\
     bodyType b = Some BodyInitType.String /\
     contentType b
       = Some (js "application/x-www-form-urlencoded;charset=UTF-8")).
Proof.
  split.
  - split; [reflexivity|]. split; [reflexivity|]. discriminate.
  - split; [reflexivity|]. eexists. split; [reflexivity|].
    split; reflexivity.
Qed.

Section NullBody.

Variable pf : Platform.

Lemma no_decoder_generateBody : no_decoder generateBody.
Proof.
  intros m. unfold generateBody. destruct (_generatedBody (this m)); reflexivity.
Qed.

Lemma no_decoder_resolve A (a : A) : no_decoder (resolve a).
Proof. intros m. reflexivity. Qed.

Lemma no_decoder_settle A (c : Completion A) : no_decoder (settle c).
Proof. intros m. destruct c; reflexivity. Qed.

Lemma no_decoder_await A B (p : Async A) (k : A -> Async B) :
  no_decoder p -> (forall a, no_decoder (k a)) -> no_decoder (await p k).
Proof.
  intros Hp Hk m. unfold await. specialize (Hp m).
  destruct (p m) as [[a|e|] m']; simpl in *; try exact Hp.
  rewrite Hk. exact Hp.
Qed.

Lemma no_decoder_collect : no_decoder (_collectChunksFromReadable pf).
Proof.
  intros m. unfold _collectChunksFromReadable.
  pose proof (no_decoder_generateBody m) as H.
  destruct (generateBody m) as [[s|] m1]; simpl in *; [|exact H].
  destruct (has_flowed s m1); [exact H|].
  destruct (readable_emits pf (readable s)) as [chunks [e|]]; exact H.
Qed.

Lemma no_decoder_blob_arrayBuffer v : no_decoder (blob_arrayBuffer v).
Proof.
  destruct v; simpl; try apply no_decoder_settle.
  destruct (blob_bytes b); [apply no_decoder_resolve|apply no_decoder_settle].
Qed.

Lemma no_decoder_blob_buffer v : no_decoder (blob_buffer v).
Proof.
  destruct v; simpl; try apply no_decoder_settle.
  destruct (blob_bytes b); [apply no_decoder_resolve|apply no_decoder_settle].
Qed.

Ltac quiet_leaf known :=
  first [ apply no_decoder_resolve
        | apply no_decoder_settle
        | apply no_decoder_collect
        | apply no_decoder_blob_arrayBuffer
        | apply no_decoder_blob_buffer
        | apply known
        | apply no_decoder_await; [quiet_leaf known | intros ?; quiet_leaf known] ].

Ltac quiet_branches known :=
  repeat match goal with
         | |- context [if ?c then _ else _] => destruct c
         end;
  quiet_leaf known.

Lemma no_decoder_blob : no_decoder (blob pf).
Proof. intros m. unfold blob. cbv zeta. quiet_branches no_decoder_collect. Qed.

Lemma no_decoder_arrayBuffer : no_decoder (arrayBuffer pf).
Proof. intros m. unfold arrayBuffer. cbv zeta. quiet_branches no_decoder_blob. Qed.

Lemma no_decoder_buffer : no_decoder (buffer pf).
Proof. intros m. unfold buffer. cbv zeta. quiet_branches no_decoder_collect. Qed.

Lemma no_decoder_text : no_decoder (text pf).
Proof. intros m. unfold text. cbv zeta. quiet_branches no_decoder_buffer. Qed.

Lemma no_decoder_json : no_decoder (json pf).
Proof.
  unfold json. apply no_decoder_await; [apply no_decoder_text|].
  intros a. apply no_decoder_settle.
Qed.

Lemma no_decoder_body : no_decoder body.
Proof.
  intros m. unfold body. pose proof (no_decoder_generateBody m) as H.
  destruct (generateBody m) as [[s|] m1]; exact H.
Qed.

(** [formData] on a body whose memo and factory give null. *)
Lemma formData_null opts m :
  bodyType (this m) = None ->
  fst (generateBody m) = None ->
  fst (formData pf opts m) = Resolved (JFormData []) /\
  decoders (snd (formData pf opts m)) = decoders m.
Proof.
  intros Hbt Hg. unfold formData. rewrite Hbt. simpl.
  pose proof (no_decoder_generateBody m) as H.
  destruct (generateBody m) as [g m1]. simpl in *. subst g. simpl. auto.
Qed.

(** No call on a body without a stream creates a decoder. *)
Lemma null_body_calls b cs m :
  (forall n, _bodyFactory b n = None) ->
  bodyType b = None ->
  null_inv b (core m) ->
  null_inv b (core (snd (perform_all pf cs m))) /\
  decoders (snd (perform_all pf cs m)) = decoders m.
Proof.
  intros Hf Hbt. revert m. induction cs as [|c cs IH]; intros m Hinv; simpl; [auto|].
  assert (Hstep : null_inv b (core (snd (perform pf c m))) /\
                  decoders (snd (perform pf c m)) = decoders m).
  { split.
    - destruct (perform_effect pf c m) as [E|E]; rewrite E; [exact Hinv|].
      apply (@null_inv_generateBody b m Hf Hinv).
    - destruct c; simpl.
      + pose proof (no_decoder_body m). destruct (body m); assumption.
      + pose proof (no_decoder_arrayBuffer m). destruct (arrayBuffer pf m); assumption.
      + pose proof (no_decoder_blob m). destruct (blob pf m); assumption.
      + assert (Hb : bodyType (this m) = None).
        { destruct Hinv as [Hfr _]. simpl in Hfr.
          rewrite (frame_bodyType Hfr). exact Hbt. }
        destruct (@null_inv_generateBody b m Hf Hinv) as [_ [Hg _]].
        pose proof (proj2 (formData_null opts m Hb Hg)).
        destruct (formData pf opts m); assumption.
      + pose proof (no_decoder_buffer m). destruct (buffer pf m); assumption.
      + pose proof (no_decoder_json m). destruct (json pf m); assumption.
      + pose proof (no_decoder_text m). destruct (text pf m); assumption. }
  destruct (perform pf c m) as [a m1]. simpl in Hstep. destruct Hstep as [H1 H2].
  specialize (IH m1 H1). destruct (perform_all pf cs m1) as [r m2].
  simpl in *. destruct IH as [H3 H4]. split; [exact H3|congruence].
Qed.

(** C8. A Body built from a null or absent initializer has no content
    length (null), no content type, and after any sequence of calls its
    [body] getter gives null and nothing is memoized: no stream is ever
    produced. *)
Theorem null_body_has_no_stream init options :
  is_nullish init = true ->
  exists b,
    new_PonyfillBody pf init options = Normal b /\
    contentLength b = None /\
    contentType b = None /\
    forall cs,
      let m := snd (perform_all pf cs (boot b)) in
      fst (body m) = None /\
      _generatedBody (this m) = None /\
      _generatedBody (this (snd (body m))) = None.
Proof.
  intros Hn.
  assert (Hr : processBodyInit pf init
               = Normal {| res_bodyType := None; res_contentType := None;
                           res_contentLength := None;
                           bodyFactory := fun _ => None |}).
  { unfold processBodyInit. rewrite Hn. reflexivity. }
  eexists. split; [unfold new_PonyfillBody; rewrite Hr; reflexivity|].
  split; [reflexivity|]. split; [reflexivity|].
  intros cs. cbv zeta.
  match goal with
  | |- context [boot ?x] => set (b := x)
  end.
  assert (Hf : forall n, _bodyFactory b n = None) by reflexivity.
  destruct (@null_body_calls b cs (boot b) Hf eq_refl) as [Hinv _].
  { split; [apply frame_refl|reflexivity]. }
  destruct (@null_inv_generateBody b _ Hf Hinv) as [[_ Hafter] [Hg _]].
  split; [|split].
  - unfold body. destruct (generateBody _) as [g m1]. simpl in Hg. subst g.
    reflexivity.
  - destruct Hinv as [_ H]. exact H.
  - rewrite <- Hafter. f_equal. f_equal.
    unfold body. destruct (generateBody _) as [[s|] m1]; reflexivity.
Qed.

(** C10. On a Body built from a null or absent initializer, and after any
    sequence of calls, [formData()] resolves with an empty collection,
    whatever the content type and the limits; neither this call nor any
    earlier one has created a decoder. *)
Theorem null_body_formData_is_empty init options opts :
  is_nullish init = true ->
  exists b,
    new_PonyfillBody pf init options = Normal b /\
    forall cs,
      let m := snd (perform_all pf cs (boot b)) in
      fst (formData pf opts m) = Resolved (JFormData []) /\
      decoders (snd (formData pf opts m)) = 0.
Proof.
  intros Hn.
  assert (Hr : processBodyInit pf init
               = Normal {| res_bodyType := None; res_contentType := None;
                           res_contentLength := None;
                           bodyFactory := fun _ => None |}).
  { unfold processBodyInit. rewrite Hn. reflexivity. }
  eexists. split; [unfold new_PonyfillBody; rewrite Hr; reflexivity|].
  intros cs. cbv zeta.
  match goal with
  | |- context [boot ?x] => set (b := x)
  end.
  assert (Hf : forall n, _bodyFactory b n = None) by reflexivity.
  destruct (@null_body_calls b cs (boot b) Hf eq_refl) as [Hinv Hdec].
  { split; [apply frame_refl|reflexivity]. }
  destruct (@null_inv_generateBody b _ Hf Hinv) as [_ [Hg _]].
  assert (Hb : bodyType (this (snd (perform_all pf cs (boot b)))) = None).
  { destruct Hinv as [Hfr _]. simpl in Hfr. rewrite (frame_bodyType Hfr).
    reflexivity. }
  destruct (formData_null opts _ Hb Hg) as [H1 H2].
  split; [exact H1|]. rewrite H2, Hdec. reflexivity.
Qed.

End NullBody.

Lemma null_body_has_no_stream_witness :
  is_nullish JNull = true /\
  exists b,
    new_PonyfillBody (scripted_platform []) JNull no_options = Normal b /\
    contentLength b = None /\
    contentType b = None /\
    forall cs,
      let m := snd (perform_all (scripted_platform []) cs (boot b)) in
      fst (body m) = None /\
      _generatedBody (this m) = None /\
      _generatedBody (this (snd (body m))) = None.
Proof.
  split; [reflexivity|].
  exact (@null_body_has_no_stream (scripted_platform []) JNull no_options eq_refl).
Defined.

Lemma null_body_formData_is_empty_witness :
  is_nullish JUndefined = true /\
  exists b,
    new_PonyfillBody
      (scripted_platform [on_field (js "a") (js "b") false false; on_close])
      JUndefined no_options = Normal b /\
    forall cs,
      let m := snd (perform_all
                      (scripted_platform [on_field (js "a") (js "b") false false; on_close])
                      cs (boot b)) in
      fst (formData
             (scripted_platform [on_field (js "a") (js "b") false false; on_close])
             None m) = Resolved (JFormData []) /\
      decoders (snd (formData
                       (scripted_platform [on_field (js "a") (js "b") false false; on_close])
                       None m)) = 0.
Proof.
  split; [reflexivity|].
  exact (@null_body_formData_is_empty
           (scripted_platform [on_field (js "a") (js "b") false false; on_close])
           JUndefined no_options None eq_refl).
Defined.

(* ------------------------------------------------------------------ *)
(** ** Worked examples *)

Example utf8_ascii : utf8_encode (js "a=1") = [x61; x3d; x31].
Proof. reflexivity. Qed.

Example utf8_round_trip :
  utf8_decode (utf8_encode [0xE9%N; 0x20AC%N; 0x1F600%N])
  = [0xE9%N; 0x20AC%N; 0x1F600%N].
Proof. vm_compute. reflexivity. Qed.

Example utf8_overlong_is_replaced : utf8_decode [xc0; x80] = [0xFFFD%N; 0xFFFD%N].
Proof. reflexivity. Qed.

(** A string Body: its metadata, and a run of calls. *)
Example string_body_metadata :
  exists b,
    new_PonyfillBody (scripted_platform []) (JString (js "hi")) no_options
      = Normal b /\
    contentType b = Some (js "text/plain;charset=UTF-8") /\
    contentLength b = Some 2 /\
    bodyType b = Some BodyInitType.String.
Proof. eexists. repeat split. Qed.

Example string_body_calls :
  exists b,
    new_PonyfillBody (scripted_platform []) (JString (js "true")) no_options
      = Normal b /\
    fst (perform_all (scripted_platform [])
           [call_text; call_buffer; call_json] (boot b))
    = [answer_value (Resolved (JString (js "true")));
       answer_value (Resolved (JBuffer [x74; x72; x75; x65]));
       answer_json (Resolved (Json_bool true))].
Proof. eexists. split; reflexivity. Qed.

(** A Body over a readable handed in: the first [text()] drains it, the
    second one waits for events that never come. *)
Example readable_body_is_drained_once :
  exists b,
    new_PonyfillBody (scripted_platform []) (JReadable 7) no_options = Normal b /\
    let r := perform_all (scripted_platform []) [call_text; call_text] (boot b) in
    fst r = [answer_value (Resolved (JString []));
             answer_value Pending] /\
    factory_calls (snd r) = 1.
Proof. eexists. split; [reflexivity|]. split; reflexivity. Qed.

(** A multipart body with the single field a = b, and an empty one. *)
Example single_field_is_decoded :
  exists b,
    new_PonyfillBody loopback_platform
      (JFormData [(js "a", EntryString (js "b"))]) no_options = Normal b /\
    fst (formData loopback_platform None (boot b))
    = Resolved (JFormData [(js "a", EntryString (js "b"))]).
Proof. eexists. split; [reflexivity|]. vm_compute. reflexivity. Qed.

Example empty_form_is_decoded :
  exists b,
    new_PonyfillBody loopback_platform (JFormData []) no_options = Normal b /\
    fst (formData loopback_platform (Some value_limit_3) (boot b))
    = Resolved (JFormData []).
Proof. eexists. split; [reflexivity|]. vm_compute. reflexivity. Qed.

(** The stream of a body is decoded once: a second [formData()] finds a
    stream that has ended, and the decoder fails on the empty input. *)
Example form_is_decoded_once :
  exists b,
    new_PonyfillBody loopback_platform
      (JFormData [(js "a", EntryString (js "b"))]) no_options = Normal b /\
    fst (perform_all loopback_platform
           [call_formData None; call_formData None] (boot b))
    = [answer_value (Resolved (JFormData [(js "a", EntryString (js "b"))]));
       answer_value (Rejected (Error_platform 0))].
Proof. eexists. split; [reflexivity|]. vm_compute. reflexivity. Qed.

(** A field value of exactly [fieldSize] bytes is refused as well. *)
Example value_of_limit_size_is_refused :
  exists b,
    new_PonyfillBody loopback_platform
      (JFormData [(js "a", EntryString (js "abc"))]) no_options = Normal b /\
    fst (formData loopback_platform (Some value_limit_3) (boot b))
    = Rejected (Error_FieldValueSize (Some 3%N)).
Proof. eexists. split; [reflexivity|]. vm_compute. reflexivity. Qed.

(** Name and value both too long: the name failure is the one reported. *)
Example both_limits_name_first :
  settlement (decode name_limit_2
                [on_field (js "na") (js "v") true true; on_close])
  = Failed (Error_FieldNameSize (Some 2%N)).
Proof. reflexivity. Qed.

(** Per-call limits win over the constructor's, member by member. *)
Example limits_are_merged :
  let ctor := {| fieldNameSize := Some 10%N; fieldSize := Some 20%N;
                 fields := None; fileSize := None; files := None;
                 parts := None; headerSize := None |} in
  fieldNameSize (spread_limits (Some ctor) (Some name_limit_2)) = Some 2%N /\
  fieldSize (spread_limits (Some ctor) (Some name_limit_2)) = Some 20%N.
Proof. split; reflexivity. Qed.

(** A text that the parser refuses: [json()] rejects. *)
Example json_rejects_bad_text :
  exists b,
    new_PonyfillBody (scripted_platform []) (JString (js "{not json")) no_options
      = Normal b /\
    fst (json (scripted_platform []) (boot b)) = Rejected SyntaxError_JSON.
Proof. eexists. split; [reflexivity|]. vm_compute. reflexivity. Qed.

(* ------------------------------------------------------------------ *)
(** * Further properties *)

Section DataUrl.

Variable up : UrlPlatform.

Lemma split_comma_not_nil s : split_comma s <> [].
Proof.
  destruct s as [|c rest]; simpl; [discriminate|].
  destruct (c =? comma)%N; [discriminate|].
  destruct (split_comma rest); discriminate.
Qed.

(** Joining the pieces gives the string back. *)
Lemma join_split_comma s : join_comma (split_comma s) = s.
Proof.
  induction s as [|c rest IH]; simpl; [reflexivity|].
  destruct (c =? comma)%N eqn:E.
  - apply N.eqb_eq in E. subst c.
    pose proof (split_comma_not_nil rest) as Hne.
    destruct (split_comma rest) as [|p ps]; [contradiction|].
    simpl. simpl in IH. rewrite IH. reflexivity.
  - pose proof (split_comma_not_nil rest) as Hne.
    destruct (split_comma rest) as [|p ps]; [contradiction|].
    destruct ps as [|q qs]; simpl in *; rewrite <- IH; reflexivity.
Qed.

Lemma split_comma_parts s :
  exists pieces,
    split_comma s = before_comma s :: pieces /\
    join_comma pieces = after_comma s.
Proof.
  induction s as [|c rest IH]; simpl.
  - exists []. split; reflexivity.
  - destruct (c =? comma)%N.
    + exists (split_comma rest). split; [reflexivity|apply join_split_comma].
    + destruct IH as [pieces [Hs Hj]]. rewrite Hs.
      exists pieces. split; [reflexivity|exact Hj].
Qed.

Lemma before_comma_app mime payload :
  ~ In comma mime -> before_comma (mime ++ comma :: payload) = mime.
Proof.
  induction mime as [|c rest IH]; simpl; intros H.
  - reflexivity.
  - destruct (c =? comma)%N eqn:E.
    + apply N.eqb_eq in E. exfalso. apply H. left. exact E.
    + rewrite IH; [reflexivity|]. intros Hin. apply H. right. exact Hin.
Qed.

Lemma after_comma_app mime payload :
  ~ In comma mime -> after_comma (mime ++ comma :: payload) = payload.
Proof.
  induction mime as [|c rest IH]; simpl; intros H.
  - reflexivity.
  - destruct (c =? comma)%N eqn:E.
    + apply N.eqb_eq in E. exfalso. apply H. left. exact E.
    + apply IH. intros Hin. apply H. right. exact Hin.
Qed.



Lemma js_startsWith_app p x : js_startsWith p (p ++ x) = true.
Proof.
  induction p as [|c p IH]; simpl; [reflexivity|].
  rewrite N.eqb_refl. exact IH.
Qed.

Lemma js_endsWith_app suffix x : js_endsWith suffix (x ++ suffix) = true.
Proof. unfold js_endsWith. rewrite rev_app_distr. apply js_startsWith_app. Qed.

Lemma js_slice_off_end_app suffix x :
  js_slice_off_end (List.length suffix) (x ++ suffix) = x.
Proof.
  unfold js_slice_off_end. rewrite length_app.
  replace (List.length x + List.length suffix - List.length suffix)
    with (List.length x + 0) by lia.
  rewrite firstn_app_2. simpl. apply app_nil_r.
Qed.

(** What the data-URL reader makes of a url: the media type is the text
    between [data:] and the first comma, the data everything after that
    comma. *)
Lemma getResponseForDataUri_parts url :
  getResponseForDataUri up url
  = let mimeType := before_comma (js_substring 5 url) in
    match decodeURIComponent up (after_comma (js_substring 5 url)) with
    | None => None
    | Some data =>
        if js_endsWith BASE64_SUFFIX mimeType then
          Some {| response_body :=
                    JPonyfillBlob
                      (new_PonyfillBlob
                         [JBuffer (Buffer_from_base64url up data)]
                         (js_slice_off_end (List.length BASE64_SUFFIX) mimeType));
                  response_init := Some {| status := 200; statusText := js "OK";
                                           headers := [] |} |}
        else
          Some {| response_body := JString data;
                  response_init :=
                    Some {| status := 200; statusText := js "OK";
                            headers := [(js "content-type", mimeType)] |} |}
    end.
Proof.
  unfold getResponseForDataUri.
  destruct (split_comma_parts (js_substring 5 url)) as [pieces [Hs Hj]].
  rewrite Hs, Hj. reflexivity.
Qed.

(** X1. A data URL [data:<type>,<payload>] whose type does not end in
    ;base64 is answered without a transport, whatever [libcurl] is, with
    status 200 OK, the body [decodeURIComponent(payload)] and the
    content-type header <type>. Commas inside the payload are kept, and an
    empty type gives an empty content-type header: the default text/plain is
    not used. *)
Theorem data_url_text_response libcurl mimeType payload data :
  ~ In comma mimeType ->
  js_endsWith BASE64_SUFFIX mimeType = false ->
  decodeURIComponent up payload = Some data ->
  fetchPonyfill up libcurl (js "data:" ++ mimeType ++ comma :: payload)
  = responded {| response_body := JString data;
                 response_init :=
                   Some {| status := 200; statusText := js "OK";
                           headers := [(js "content-type", mimeType)] |} |}.
Proof.
  intros Hc Hb Hd. unfold fetchPonyfill.
  change (js_startsWith (js "data:") (js "data:" ++ mimeType ++ comma :: payload))
    with true. cbv iota.
  rewrite getResponseForDataUri_parts.
  change (js_substring 5 (js "data:" ++ mimeType ++ comma :: payload))
    with (mimeType ++ comma :: payload).
  cbv zeta. rewrite before_comma_app, after_comma_app by exact Hc.
  rewrite Hd, Hb. reflexivity.
Qed.

(** X2. A data URL [data:<type>;base64,<payload>] is answered with a blob
    built with the type <type> (the suffix is cut off), which reports
    <type>, or application/octet-stream when <type> is empty, and holds the
    base64url decoding of [decodeURIComponent(payload)]; the response has
    status 200 OK and no headers. *)
Theorem data_url_base64_response libcurl realMimeType payload data :
  ~ In comma realMimeType ->
  decodeURIComponent up payload = Some data ->
  fetchPonyfill up libcurl
    (js "data:" ++ (realMimeType ++ BASE64_SUFFIX) ++ comma :: payload)
  = responded
      {| response_body :=
           JPonyfillBlob {| blob_parts := [PartBytes (Buffer_from_base64url up data)];
                            blob_type := blob_type_of realMimeType |};
         response_init := Some {| status := 200; statusText := js "OK";
                                  headers := [] |} |}.
Proof.
  intros Hc Hd. unfold fetchPonyfill.
  change (js_startsWith (js "data:")
            (js "data:" ++ (realMimeType ++ BASE64_SUFFIX) ++ comma :: payload))
    with true. cbv iota.
  rewrite getResponseForDataUri_parts.
  change (js_substring 5
            (js "data:" ++ (realMimeType ++ BASE64_SUFFIX) ++ comma :: payload))
    with ((realMimeType ++ BASE64_SUFFIX) ++ comma :: payload).
  assert (Hc' : ~ In comma (realMimeType ++ BASE64_SUFFIX)).
  { intros Hin. apply in_app_or in Hin. destruct Hin as [Hin|Hin]; [auto|].
    simpl in Hin. repeat (destruct Hin as [Hin|Hin]; [discriminate Hin|]).
    exact Hin. }
  cbv zeta. rewrite before_comma_app, after_comma_app by exact Hc'.
  rewrite Hd, js_endsWith_app, js_slice_off_end_app. reflexivity.
Qed.


End DataUrl.

Lemma data_url_text_response_witness :
  ~ In comma (js "text/html") /\
  js_endsWith BASE64_SUFFIX (js "text/html") = false /\
  decodeURIComponent plain_url_platform (js "a,b") = Some (js "a,b") /\
  fetchPonyfill plain_url_platform true (js "data:text/html,a,b")
  = responded {| response_body := JString (js "a,b");
                 response_init :=
                   Some {| status := 200; statusText := js "OK";
                           headers := [(js "content-type", js "text/html")] |} |}.
Proof.
  assert (Hc : ~ In comma (js "text/html")).
  { simpl. intros H. repeat (destruct H as [H|H]; [discriminate H|]). exact H. }
  split; [exact Hc|]. split; [reflexivity|]. split; [reflexivity|].
  exact (@data_url_text_response plain_url_platform true (js "text/html")
           (js "a,b") (js "a,b") Hc eq_refl eq_refl).
Defined.

Lemma data_url_base64_response_witness :
  ~ In comma (js "image/png") /\
  decodeURIComponent plain_url_platform (js "AQID") = Some (js "AQID") /\
  fetchPonyfill plain_url_platform false (js "data:image/png;base64,AQID")
  = responded
      {| response_body :=
           JPonyfillBlob
             {| blob_parts := [PartBytes (Buffer_from_base64url plain_url_platform
                                            (js "AQID"))];
                blob_type := js "image/png" |};
         response_init := Some {| status := 200; statusText := js "OK";
                                  headers := [] |} |}.
Proof.
  assert (Hc : ~ In comma (js "image/png")).
  { simpl. intros H. repeat (destruct H as [H|H]; [discriminate H|]). exact H. }
  split; [exact Hc|]. split; [reflexivity|].
  exact (@data_url_base64_response plain_url_platform false (js "image/png")
           (js "AQID") (js "AQID") Hc eq_refl).
Defined.


Section Answers.

Variable pf : Platform.

Lemma frame_sym b b' : frame b b' -> frame b' b.
Proof. unfold frame. intros H. symmetry. exact H. Qed.

Lemma frame_contentLength b b' : frame b b' -> contentLength b' = contentLength b.
Proof. intros H. apply (f_equal contentLength) in H. exact H. Qed.

Lemma frame_options b b' : frame b b' -> options b' = options b.
Proof. intros H. apply (f_equal options) in H. exact H. Qed.

Lemma body_snd m : snd (body m) = snd (generateBody m).
Proof. unfold body. destruct (generateBody m) as [[s|] m1]; reflexivity. Qed.

Lemma generateBody_flowed m : flowed (snd (generateBody m)) = flowed m.
Proof. unfold generateBody. destruct (_generatedBody (this m)); reflexivity. Qed.

Lemma state_free_resolve A (a : A) : state_free (resolve a).
Proof. intros m m'. reflexivity. Qed.

Lemma state_free_settle A (c : Completion A) : state_free (settle c).
Proof. intros m m'. destruct c; reflexivity. Qed.

Lemma state_free_blob_arrayBuffer v : state_free (blob_arrayBuffer v).
Proof.
  intros m m'. destruct v; simpl; try reflexivity.
  destruct (blob_bytes b); reflexivity.
Qed.

Lemma state_free_blob_buffer v : state_free (blob_buffer v).
Proof.
  intros m m'. destruct v; simpl; try reflexivity.
  destruct (blob_bytes b); reflexivity.
Qed.

Lemma state_free_await A B (p : Async A) (k : A -> Async B) :
  state_free p -> (forall a, state_free (k a)) -> state_free (await p k).
Proof.
  intros Hp Hk m m'. unfold await. specialize (Hp m m').
  destruct (p m) as [[a|e|] m1], (p m') as [[a'|e'|] m1']; simpl in *;
    try congruence.
  inversion Hp; subst. apply Hk.
Qed.

Lemma await_answer A B (p : Async A) (k : A -> Async B) m m' :
  fst (p m) = fst (p m') ->
  (forall a, state_free (k a)) ->
  fst (await p k m) = fst (await p k m').
Proof.
  intros Hp Hk. unfold await.
  destruct (p m) as [[a|e|] m1], (p m') as [[a'|e'|] m1']; simpl in *;
    try congruence.
  inversion Hp; subst. apply Hk.
Qed.

Lemma collect_alike m m' :
  alike m m' ->
  fst (_collectChunksFromReadable pf m) = fst (_collectChunksFromReadable pf m').
Proof.
  intros [_ [Hfl Hg]]. unfold _collectChunksFromReadable.
  pose proof (generateBody_flowed m) as F. pose proof (generateBody_flowed m') as F'.
  destruct (generateBody m) as [g m1], (generateBody m') as [g' m1'].
  simpl in *. subst g'. destruct g as [s|]; [|reflexivity].
  unfold has_flowed. rewrite F, F', Hfl.
  destruct (existsb _ (flowed m')); [reflexivity|].
  destruct (readable_emits pf (readable s)) as [chunks [e|]]; reflexivity.
Qed.

Ltac free_leaf :=
  first [ apply state_free_resolve
        | apply state_free_settle
        | apply state_free_blob_arrayBuffer
        | apply state_free_blob_buffer
        | apply state_free_await; [free_leaf | intros ?; free_leaf] ].

Lemma blob_alike m m' : alike m m' -> fst (blob pf m) = fst (blob pf m').
Proof.
  intros H. pose proof (collect_alike H) as Hc. destruct H as [Hfr _].
  unfold blob. cbv zeta.
  rewrite (frame_bodyType Hfr), (frame_bodyInit Hfr), (frame_contentType Hfr).
  repeat match goal with
         | |- context [if ?c then _ else _] => destruct c
         end;
    try reflexivity;
    try (apply await_answer; [first [exact Hc|reflexivity]|intros ?; free_leaf]).
  apply state_free_await; [free_leaf|intros ?; free_leaf].
Qed.

Lemma arrayBuffer_alike m m' :
  alike m m' -> fst (arrayBuffer pf m) = fst (arrayBuffer pf m').
Proof.
  intros H. pose proof (blob_alike H) as Hb. destruct H as [Hfr _].
  unfold arrayBuffer. cbv zeta.
  rewrite (frame_bodyType Hfr), (frame_bodyInit Hfr).
  repeat match goal with
         | |- context [if ?c then _ else _] => destruct c
         end;
    try reflexivity;
    try (apply await_answer; [exact Hb|intros ?; free_leaf]);
    free_leaf.
Qed.

Lemma buffer_alike m m' : alike m m' -> fst (buffer pf m) = fst (buffer pf m').
Proof.
  intros H. pose proof (collect_alike H) as Hc. destruct H as [Hfr _].
  unfold buffer. cbv zeta.
  rewrite (frame_bodyType Hfr), (frame_bodyInit Hfr).
  repeat match goal with
         | |- context [if ?c then _ else _] => destruct c
         end;
    try reflexivity;
    try (apply await_answer; [exact Hc|intros ?; free_leaf]);
    free_leaf.
Qed.

Lemma text_alike m m' : alike m m' -> fst (text pf m) = fst (text pf m').
Proof.
  intros H. pose proof (buffer_alike H) as Hb. destruct H as [Hfr _].
  unfold text. cbv zeta.
  rewrite (frame_bodyType Hfr), (frame_bodyInit Hfr).
  destruct (bodyType_is _ _); [reflexivity|].
  apply await_answer; [exact Hb|intros ?; free_leaf].
Qed.

Lemma json_alike m m' : alike m m' -> fst (json pf m) = fst (json pf m').
Proof.
  intros H. unfold json.
  apply await_answer; [apply text_alike; exact H|intros ?; free_leaf].
Qed.

Lemma formData_alike opts m m' :
  alike m m' -> fst (formData pf opts m) = fst (formData pf opts m').
Proof.
  intros [Hfr [Hfl Hg]]. unfold formData.
  rewrite (frame_bodyType Hfr), (frame_bodyInit Hfr).
  destruct (bodyType_is _ _); [reflexivity|].
  pose proof (generateBody_flowed m) as F. pose proof (generateBody_flowed m') as F'.
  pose proof (generateBody_frame m (frame_refl (this m))) as G.
  pose proof (generateBody_frame m' (frame_refl (this m'))) as G'.
  destruct (generateBody m) as [g m1], (generateBody m') as [g' m1'].
  simpl in *. subst g'. destruct g as [s|]; [|reflexivity].
  rewrite (frame_options G), (frame_contentType G).
  rewrite (frame_options G'), (frame_contentType G').
  rewrite (frame_options Hfr), (frame_contentType Hfr).
  destruct (busboy_throws pf _ _); [reflexivity|].
  unfold has_flowed. simpl. rewrite F, F', Hfl. reflexivity.
Qed.

(** States that are alike give the same answer to every call. *)
Lemma perform_alike c m m' :
  alike m m' -> fst (perform pf c m) = fst (perform pf c m').
Proof.
  intros H. destruct c; simpl.
  - destruct H as [_ [_ Hg]]. unfold body.
    destruct (generateBody m) as [g m1], (generateBody m') as [g' m1'].
    simpl in Hg. subst g'. destruct g; reflexivity.
  - pose proof (arrayBuffer_alike H) as E.
    destruct (arrayBuffer pf m), (arrayBuffer pf m'); simpl in *; congruence.
  - pose proof (blob_alike H) as E.
    destruct (blob pf m), (blob pf m'); simpl in *; congruence.
  - pose proof (formData_alike opts H) as E.
    destruct (formData pf opts m), (formData pf opts m'); simpl in *; congruence.
  - pose proof (buffer_alike H) as E.
    destruct (buffer pf m), (buffer pf m'); simpl in *; congruence.
  - pose proof (json_alike H) as E.
    destruct (json pf m), (json pf m'); simpl in *; congruence.
  - pose proof (text_alike H) as E.
    destruct (text pf m), (text pf m'); simpl in *; congruence.
Qed.

(** The memo of a constructed Body after any calls. *)
Lemma reachable_memo init options b cs :
  new_PonyfillBody pf init options = Normal b ->
  let m := snd (perform_all pf cs (boot b)) in
  frame b (this m) /\
  fst (generateBody (snd (generateBody m))) = fst (generateBody m).
Proof.
  intros Hnew m.
  destruct (@new_PonyfillBody_inv pf _ _ _ Hnew) as [r [Hr Hb]].
  split; [apply perform_all_frame; apply frame_refl|].
  destruct (is_nullish init) eqn:Hn.
  - assert (Hf : forall n, _bodyFactory b n = None).
    { intros n. rewrite Hb. simpl.
      rewrite (@processBodyInit_null pf _ _ Hr Hn). reflexivity. }
    assert (Hinv : null_inv b (core m)).
    { apply (perform_all_invariant pf (null_inv b)).
      - intros m0 Hm. apply (@null_inv_generateBody b m0 Hf Hm).
      - split; simpl; [apply frame_refl|]. rewrite Hb. reflexivity. }
    destruct (@null_inv_generateBody b m Hf Hinv) as [Hinv' [H1 _]].
    destruct (@null_inv_generateBody b _ Hf Hinv') as [_ [H2 _]].
    congruence.
  - assert (Hf : forall n, exists s, _bodyFactory b n = Some s).
    { intros n. rewrite Hb. simpl.
      exact (@processBodyInit_factory pf _ _ Hr Hn n). }
    assert (Hinv : memo_inv b (core m)).
    { apply (perform_all_invariant pf (memo_inv b)).
      - intros m0 Hm. apply (@memo_inv_generateBody b m0 Hf Hm).
      - split; simpl; [apply frame_refl|]. left. rewrite Hb. auto. }
    destruct (@memo_inv_generateBody b m Hf Hinv) as [_ [s [Hg [Hs _]]]].
    rewrite (generateBody_memo _ Hs). rewrite Hg. reflexivity.
Qed.

(** X4. Reading the [body] accessor does not disturb the Body: on a
    constructed Body, after any calls, every call gives the same answer
    whether or not [body] was read just before it. *)
Theorem body_getter_disturbs_nothing init options b :
  new_PonyfillBody pf init options = Normal b ->
  forall cs c,
    let m := snd (perform_all pf cs (boot b)) in
    fst (perform pf c (snd (body m))) = fst (perform pf c m).
Proof.
  intros Hnew cs c m. apply perform_alike.
  destruct (@reachable_memo init options b cs Hnew) as [_ Hg]. fold m in Hg.
  rewrite body_snd. split; [|split].
  - apply frame_sym. apply generateBody_frame. apply frame_refl.
  - apply generateBody_flowed.
  - exact Hg.
Qed.

Lemma generateBody_new_decoder m :
  fst (generateBody (new_decoder m)) = fst (generateBody m).
Proof.
  unfold generateBody. simpl. destruct (_generatedBody (this m)); reflexivity.
Qed.

(** A stream that was generated is generated again without the factory. *)
Lemma generateBody_again m s :
  fst (generateBody m) = Some s ->
  generateBody (snd (generateBody m)) = (Some s, snd (generateBody m)).
Proof.
  unfold generateBody. destruct (_generatedBody (this m)) eqn:G; simpl; intros H.
  - inversion H; subst. rewrite G. reflexivity.
  - rewrite H. reflexivity.
Qed.

(** X5. When the decoder refuses the content type, [formData()] rejects
    with the decoder's error and the stream is left untouched: every later
    call gives the answer it would have given without that [formData()]. *)
Theorem refused_formData_consumes_nothing m opts s e :
  bodyType_is (bodyType (this m)) BodyInitType.FormData = false ->
  fst (generateBody m) = Some s ->
  busboy_throws pf (call_content_type m) (call_limits m opts) = Some e ->
  fst (formData pf opts m) = Rejected e /\
  flowed (snd (formData pf opts m)) = flowed m /\
  forall c, fst (perform pf c (snd (formData pf opts m))) = fst (perform pf c m).
Proof.
  intros Hbt Hg Hthrow.
  assert (E : formData pf opts m = (Rejected e, new_decoder (snd (generateBody m)))).
  { unfold formData. rewrite Hbt.
    destruct (generateBody_keeps m) as [Ho [Hc _]].
    destruct (generateBody m) as [g m1]. simpl in *. subst g.
    unfold call_limits, call_content_type in Hthrow.
    rewrite Ho, Hc, Hthrow. reflexivity. }
  rewrite E. simpl. split; [reflexivity|]. split; [apply generateBody_flowed|].
  intros c. apply perform_alike. split; [|split]; simpl.
  - apply frame_sym. apply generateBody_frame. apply frame_refl.
  - apply generateBody_flowed.
  - rewrite generateBody_new_decoder.
    rewrite (generateBody_again _ Hg). simpl. symmetry. exact Hg.
Qed.

Lemma blob_bytes_of_buffers chunks :
  blob_bytes_of (map as_BlobPart (map JBuffer chunks)) = Some (List.concat chunks).
Proof.
  induction chunks as [|c rest IH]; simpl; [reflexivity|].
  rewrite IH. reflexivity.
Qed.

Lemma not_from_memory bt :
  answers_from_memory bt = false ->
  bodyType_is bt BodyInitType.String = false /\
  bodyType_is bt BodyInitType.Buffer = false /\
  bodyType_is bt BodyInitType.Uint8Array = false /\
  bodyType_is bt BodyInitType.ArrayBuffer = false /\
  bodyType_is bt BodyInitType.Blob = false.
Proof. destruct bt as [[]|]; simpl; intros H; try discriminate; auto. Qed.

(** The first drain of a stream that has not flowed. *)
Lemma collect_fresh m s chunks failure :
  fst (generateBody m) = Some s ->
  has_flowed s m = false ->
  readable_emits pf (readable s) = (chunks, failure) ->
  _collectChunksFromReadable pf m
  = (match failure with
     | None => Resolved chunks
     | Some e => Rejected e
     end, set_flowed s (snd (generateBody m))).
Proof.
  intros Hg Hfl He. unfold _collectChunksFromReadable.
  pose proof (generateBody_flowed m) as F.
  destruct (generateBody m) as [g m1]. simpl in *. subst g.
  replace (has_flowed s m1) with (has_flowed s m)
    by (unfold has_flowed; rewrite F; reflexivity).
  rewrite Hfl, He. destruct failure; reflexivity.
Qed.

(** X6. The first drain of a stream-backed Body gives the chunks of the
    stream, concatenated in the order they were emitted: [buffer()] and
    [arrayBuffer()] hold those bytes, [text()] their UTF-8 decoding, and
    [blob()] a blob of the chunks, built with the content type as its type:
    it holds the same bytes and reports the content type, or
    application/octet-stream when the body has none. *)
Theorem stream_is_drained_in_order m s chunks :
  answers_from_memory (bodyType (this m)) = false ->
  fst (generateBody m) = Some s ->
  has_flowed s m = false ->
  readable_emits pf (readable s) = (chunks, None) ->
  fst (buffer pf m) = Resolved (JBuffer (List.concat chunks)) /\
  fst (arrayBuffer pf m) = Resolved (JArrayBuffer (List.concat chunks)) /\
  fst (text pf m) = Resolved (JString (utf8_decode (List.concat chunks))) /\
  (exists bl,
      fst (blob pf m) = Resolved (JPonyfillBlob bl) /\
      blob_parts bl = map PartBytes chunks /\
      blob_bytes bl = Some (List.concat chunks) /\
      blob_type bl = match contentType (this m) with
                     | Some (c :: rest) => c :: rest
                     | _ => js "application/octet-stream"
                     end).
Proof.
  intros Hmem Hg Hfl He.
  destruct (not_from_memory _ Hmem) as [H1 [H2 [H3 [H4 H5]]]].
  pose proof (collect_fresh _ Hg Hfl He) as Hc.
  assert (Hbuf : buffer pf m = (Resolved (JBuffer (List.concat chunks)),
                                set_flowed s (snd (generateBody m)))).
  { unfold buffer. cbv zeta. rewrite H1, H2, H3, H4, H5. simpl.
    unfold await. rewrite Hc. reflexivity. }
  assert (Hblob : blob pf m
                  = (Resolved (JPonyfillBlob
                                 (new_PonyfillBlob (map JBuffer chunks)
                                    (or_empty (contentType (this m))))),
                     set_flowed s (snd (generateBody m)))).
  { unfold blob. cbv zeta. rewrite H1, H2, H3, H4, H5. simpl.
    unfold await. rewrite Hc. reflexivity. }
  split; [rewrite Hbuf; reflexivity|]. split; [|split].
  - unfold arrayBuffer. cbv zeta. rewrite H1, H2, H3, H4, H5. simpl.
    unfold await. rewrite Hblob. simpl. unfold blob_bytes. simpl.
    rewrite blob_bytes_of_buffers. reflexivity.
  - unfold text. cbv zeta. rewrite H1. unfold await. rewrite Hbuf. reflexivity.
  - eexists. split; [rewrite Hblob; reflexivity|].
    unfold new_PonyfillBlob. simpl. rewrite map_map. simpl.
    split; [reflexivity|]. split.
    + unfold blob_bytes. simpl.
      rewrite <- (map_map JBuffer as_BlobPart). apply blob_bytes_of_buffers.
    + destruct (contentType (this m)) as [[|c rest]|]; reflexivity.
Qed.

(** X7. When the stream of a stream-backed Body fails, the first drain
    passes the stream's error on: [buffer()], [arrayBuffer()], [text()],
    [blob()] and [json()] all reject with it, and [json()] does not reach the
    parser. *)
Theorem stream_failure_is_passed_on m s chunks e :
  answers_from_memory (bodyType (this m)) = false ->
  fst (generateBody m) = Some s ->
  has_flowed s m = false ->
  readable_emits pf (readable s) = (chunks, Some e) ->
  fst (buffer pf m) = Rejected e /\
  fst (arrayBuffer pf m) = Rejected e /\
  fst (text pf m) = Rejected e /\
  fst (blob pf m) = Rejected e /\
  fst (json pf m) = Rejected e.
Proof.
  intros Hmem Hg Hfl He.
  destruct (not_from_memory _ Hmem) as [H1 [H2 [H3 [H4 H5]]]].
  pose proof (collect_fresh _ Hg Hfl He) as Hc.
  assert (Hbuf : buffer pf m = (Rejected e, set_flowed s (snd (generateBody m)))).
  { unfold buffer. cbv zeta. rewrite H1, H2, H3, H4, H5. simpl.
    unfold await. rewrite Hc. reflexivity. }
  assert (Hblob : blob pf m = (Rejected e, set_flowed s (snd (generateBody m)))).
  { unfold blob. cbv zeta. rewrite H1, H2, H3, H4, H5. simpl.
    unfold await. rewrite Hc. reflexivity. }
  assert (Htext : text pf m = (Rejected e, set_flowed s (snd (generateBody m)))).
  { unfold text. cbv zeta. rewrite H1. unfold await. rewrite Hbuf. reflexivity. }
  split; [rewrite Hbuf; reflexivity|]. split; [|split; [|split]].
  - unfold arrayBuffer. cbv zeta. rewrite H1, H2, H3, H4, H5. simpl.
    unfold await. rewrite Hblob. reflexivity.
  - rewrite Htext. reflexivity.
  - rewrite Hblob. reflexivity.
  - unfold json, await. rewrite Htext. reflexivity.
Qed.

Lemma blob_arrayBuffer_snd v m : snd (blob_arrayBuffer v m) = m.
Proof. destruct v; simpl; try reflexivity. destruct (blob_bytes b); reflexivity. Qed.

Lemma blob_buffer_snd v m : snd (blob_buffer v m) = m.
Proof. destruct v; simpl; try reflexivity. destruct (blob_bytes b); reflexivity. Qed.

Lemma settle_state A (c : Completion A) m : snd (settle c m) = m.
Proof. destruct c; reflexivity. Qed.

Lemma await_state A B (p : Async A) (k : A -> Async B) m :
  snd (p m) = m -> (forall a, snd (k a m) = m) -> snd (await p k m) = m.
Proof.
  intros Hp Hk. unfold await. destruct (p m) as [[a|e|] m1]; simpl in *; subst;
    auto.
Qed.

Ltac still :=
  first [ reflexivity
        | apply settle_state
        | apply blob_arrayBuffer_snd
        | apply blob_buffer_snd
        | apply await_state; [still | intros ?; still] ].

Lemma memory_call_keeps_state c m :
  answers_from_memory (bodyType (this m)) = true ->
  materialization c = true ->
  snd (perform pf c m) = m.
Proof.
  intros Hmem Hc.
  assert (Hblob : snd (blob pf m) = m).
  { unfold blob. cbv zeta.
    destruct (bodyType (this m)) as [[]|]; simpl in *; try discriminate; still. }
  assert (Hbuf : snd (buffer pf m) = m).
  { unfold buffer. cbv zeta.
    destruct (bodyType (this m)) as [[]|]; simpl in *; try discriminate;
      try still.
    destruct (instanceof_PonyfillBlob (bodyInit (this m))); still. }
  assert (Harr : snd (arrayBuffer pf m) = m).
  { unfold arrayBuffer. cbv zeta.
    destruct (bodyType (this m)) as [[]|]; simpl in *; try discriminate; still. }
  assert (Htext : snd (text pf m) = m).
  { unfold text. cbv zeta.
    destruct (bodyType_is (bodyType (this m)) BodyInitType.String); [reflexivity|].
    apply await_state; [exact Hbuf|intros ?; still]. }
  assert (Hjson : snd (json pf m) = m).
  { unfold json. apply await_state; [exact Htext|intros ?; still]. }
  destruct c; simpl in *; try discriminate.
  - destruct (arrayBuffer pf m); exact Harr.
  - destruct (blob pf m); exact Hblob.
  - destruct (buffer pf m); exact Hbuf.
  - destruct (json pf m); exact Hjson.
  - destruct (text pf m); exact Htext.
Qed.

(** X8. On a Body tagged String, Buffer, Uint8Array, ArrayBuffer or Blob,
    [text()], [json()], [buffer()], [arrayBuffer()] and [blob()] answer from
    the initializer: no sequence of these calls invokes the stream factory,
    creates a stream or changes the object in any way. *)
Theorem memory_answers_keep_state cs m :
  answers_from_memory (bodyType (this m)) = true ->
  forallb materialization cs = true ->
  snd (perform_all pf cs m) = m.
Proof.
  intros Hmem. induction cs as [|c cs IH]; simpl; intros H; [reflexivity|].
  apply andb_true_iff in H. destruct H as [Hc Hcs].
  pose proof (memory_call_keeps_state c m Hmem Hc) as E.
  destruct (perform pf c m) as [a m1]. simpl in E. subst m1.
  specialize (IH Hcs). destruct (perform_all pf cs m) as [r m2].
  simpl in *. exact IH.
Qed.

(** X9. The content length of a Body built from a string, Buffer,
    Uint8Array or ArrayBuffer is the number of bytes [buffer()] resolves
    with (for a string, of its UTF-8 encoding), after any calls. *)
Theorem contentLength_counts_the_bytes init options b :
  in_memory init = true ->
  new_PonyfillBody pf init options = Normal b ->
  forall cs,
    let m := snd (perform_all pf cs (boot b)) in
    exists bytes,
      fst (buffer pf m) = Resolved (JBuffer bytes) /\
      contentLength (this m) = Some (List.length bytes).
Proof.
  intros Hmem Hnew cs m.
  destruct (@new_PonyfillBody_inv pf _ _ _ Hnew) as [r [Hr Hb]].
  assert (Hfr : frame b (this m)).
  { apply perform_all_frame. apply frame_refl. }
  pose proof (frame_bodyType Hfr) as Hbt.
  pose proof (frame_bodyInit Hfr) as Hbi.
  pose proof (frame_contentLength Hfr) as Hcl.
  rewrite Hb in Hbt, Hbi, Hcl. simpl in Hbt, Hbi, Hcl.
  unfold buffer. cbv zeta. rewrite Hbt, Hbi, Hcl.
  destruct init; try discriminate Hmem;
    unfold processBodyInit in Hr; simpl in Hr; inversion Hr; subst r; simpl;
    eexists; split; reflexivity.
Qed.

Lemma blob_size_of_bytes bl x :
  blob_bytes bl = Some x -> blob_size bl = List.length x.
Proof.
  unfold blob_bytes, blob_size. revert x.
  induction (blob_parts bl) as [|p rest IH]; simpl; intros x H.
  - inversion H. reflexivity.
  - destruct (blob_part_bytes p) as [y|]; [|discriminate].
    destruct (blob_bytes_of rest) as [r|]; [|discriminate].
    inversion H. rewrite length_app, (IH r eq_refl). reflexivity.
Qed.

(** X10. A Body built from a blob reports the blob's type and size,
    [blob()] resolves with the blob that was handed in, and [buffer()],
    [arrayBuffer()] and [text()] with its content, as many bytes as the
    content length says. *)
Theorem blob_body_answers_from_the_blob bl options :
  exists b,
    new_PonyfillBody pf (JPonyfillBlob bl) options = Normal b /\
    contentType b = Some (blob_type bl) /\
    contentLength b = Some (blob_size bl) /\
    fst (blob pf (boot b)) = Resolved (JPonyfillBlob bl) /\
    forall x,
      blob_bytes bl = Some x ->
      fst (buffer pf (boot b)) = Resolved (JBuffer x) /\
      fst (arrayBuffer pf (boot b)) = Resolved (JArrayBuffer x) /\
      fst (text pf (boot b)) = Resolved (JString (utf8_decode x)) /\
      contentLength b = Some (List.length x).
Proof.
  eexists. split; [reflexivity|]. simpl.
  split; [reflexivity|]. split; [reflexivity|]. split; [reflexivity|].
  intros x Hx.
  unfold buffer, arrayBuffer, text, await, buffer. simpl. rewrite Hx. simpl.
  repeat split. rewrite (blob_size_of_bytes _ Hx). reflexivity.
Qed.

(** X11. On a Body built from a URL-encoded parameter set, [buffer()] and
    [arrayBuffer()] reject with a TypeError (the object is handed to
    [Buffer.from] as if it were a string), while [json()] parses the
    serialized parameters. *)
Theorem urlencoded_body_has_no_bytes p options :
  exists b,
    new_PonyfillBody pf (JURLSearchParams p) options = Normal b /\
    fst (buffer pf (boot b)) = Rejected TypeError_invalid_argument /\
    fst (arrayBuffer pf (boot b)) = Rejected TypeError_invalid_argument /\
    fst (json pf (boot b))
    = match JSON_parse pf (URLSearchParams_toString pf p) with
      | Some j => Resolved j
      | None => Rejected SyntaxError_JSON
      end.
Proof.
  eexists. split; [reflexivity|]. simpl.
  split; [reflexivity|]. split; [reflexivity|].
  unfold json, await, text, settle, js_JSON_parse. simpl.
  destruct (JSON_parse pf (URLSearchParams_toString pf p)); reflexivity.
Qed.

(** X12. A Body built from a null or absent initializer is empty, again and
    again: after any calls [text()] resolves with the empty string,
    [buffer()] and [arrayBuffer()] with no bytes, and [blob()] with a blob
    without parts, which reports the type application/octet-stream. *)
Theorem null_body_is_empty init options :
  is_nullish init = true ->
  exists b,
    new_PonyfillBody pf init options = Normal b /\
    forall cs,
      let m := snd (perform_all pf cs (boot b)) in
      fst (text pf m) = Resolved (JString []) /\
      fst (buffer pf m) = Resolved (JBuffer []) /\
      fst (arrayBuffer pf m) = Resolved (JArrayBuffer []) /\
      fst (blob pf m)
      = Resolved (JPonyfillBlob {| blob_parts := [];
                                   blob_type := js "application/octet-stream" |}).
Proof.
  intros Hn.
  assert (Hr : processBodyInit pf init
               = Normal {| res_bodyType := None; res_contentType := None;
                           res_contentLength := None;
                           bodyFactory := fun _ => None |}).
  { unfold processBodyInit. rewrite Hn. reflexivity. }
  eexists. split; [unfold new_PonyfillBody; rewrite Hr; reflexivity|].
  intros cs. cbv zeta.
  match goal with
  | |- context [boot ?x] => set (b := x)
  end.
  set (m := snd (perform_all pf cs (boot b))).
  assert (Hf : forall n, _bodyFactory b n = None) by reflexivity.
  destruct (@null_body_calls pf b cs (boot b) Hf eq_refl) as [Hinv _].
  { split; [apply frame_refl|reflexivity]. }
  fold m in Hinv.
  destruct (@null_inv_generateBody b m Hf Hinv) as [_ [Hg _]].
  destruct Hinv as [Hfr _]. simpl in Hfr.
  pose proof (frame_bodyType Hfr) as Hbt.
  pose proof (frame_contentType Hfr) as Hct.
  simpl in Hbt, Hct.
  assert (Hc : fst (_collectChunksFromReadable pf m) = Resolved []).
  { unfold _collectChunksFromReadable.
    destruct (generateBody m) as [g m1]. simpl in Hg. subst g. reflexivity. }
  assert (Hbuf : fst (buffer pf m) = Resolved (JBuffer [])).
  { unfold buffer. cbv zeta. rewrite Hbt. simpl. unfold await.
    destruct (_collectChunksFromReadable pf m) as [o m1]. simpl in Hc. subst o.
    reflexivity. }
  assert (Hblob : fst (blob pf m)
                  = Resolved (JPonyfillBlob
                                {| blob_parts := [];
                                   blob_type := js "application/octet-stream" |})).
  { unfold blob. cbv zeta. rewrite Hbt, Hct. simpl. unfold await.
    destruct (_collectChunksFromReadable pf m) as [o m1]. simpl in Hc. subst o.
    reflexivity. }
  split; [|split; [exact Hbuf|split; [|exact Hblob]]].
  - unfold text. cbv zeta. rewrite Hbt. simpl. unfold await.
    destruct (buffer pf m) as [o m1]. simpl in Hbuf. subst o. reflexivity.
  - unfold arrayBuffer. cbv zeta. rewrite Hbt. simpl. unfold await.
    destruct (blob pf m) as [o m1]. simpl in Hblob. subst o. reflexivity.
Qed.

(** X13. No initializer gives a Body the FormData tag, so [formData()]
    never answers with the initializer itself. A Body built from a form-data
    set announces the boundary its stream is encoded with, and [formData()]
    on it runs the decoder on that stream: the answer is what the decoder's
    events make it. *)
Theorem formData_tag_is_never_set :
  (forall init options b,
      new_PonyfillBody pf init options = Normal b ->
      bodyType b <> Some BodyInitType.FormData) /\
  (forall fd options opts,
      exists b,
        new_PonyfillBody pf (JFormData fd) options = Normal b /\
        contentType b
        = Some (js "multipart/form-data; boundary=" ++ random_boundary pf) /\
        fst (generateBody (boot b))
        = Some (new_PonyfillReadableStream 0
                  (getStreamFromFormData (JFormData fd) (random_boundary pf))) /\
        decoders (snd (formData pf opts (boot b))) = 1 /\
        (busboy_throws pf (call_content_type (boot b)) (call_limits (boot b) opts)
         = None ->
         fst (formData pf opts (boot b))
         = decoding_outcome
             (decode (call_limits (boot b) opts)
                (busboy_emits pf (call_content_type (boot b))
                   (call_limits (boot b) opts)
                   (readable_emits pf
                      (getStreamFromFormData (JFormData fd)
                         (random_boundary pf))))))).
Proof.
  split.
  - intros init options b Hnew.
    destruct (@new_PonyfillBody_inv pf _ _ _ Hnew) as [r [Hr Hb]].
    rewrite Hb. simpl. unfold processBodyInit in Hr.
    destruct init; simpl in Hr; try discriminate;
      repeat match type of Hr with
             | context [if ?c then _ else _] => destruct c
             end;
      inversion Hr; subst; simpl; discriminate.
  - intros fd options opts. eexists. split; [reflexivity|]. simpl.
    split; [reflexivity|]. split; [reflexivity|].
    unfold formData, call_limits, call_content_type. simpl.
    destruct (busboy_throws pf _ _); simpl; split; try reflexivity;
      intros H; first [discriminate H|reflexivity].
Qed.

(** X14. The first failure decides: when the decoder's first event that is
    not an intact field or file is a limit event (field name or value
    truncated, file over its size, too many fields, files or parts) or an
    error, [formData()] rejects with the failure of that event, whatever
    follows, be it other failures or the decoder's close. *)
Theorem formData_rejects_with_first_failure m opts s pre ev post e :
  decoder_runs pf m opts s (pre ++ ev :: post) ->
  forallb quiet pre = true ->
  loud_failure (call_limits m opts) ev = Some e ->
  fst (formData pf opts m) = Rejected e.
Proof.
  intros Hrun Hq Hl. rewrite (formData_runs_decoder Hrun).
  unfold decoding_outcome.
  rewrite (@decode_first_failure (call_limits m opts) pre ev post e Hq Hl).
  reflexivity.
Qed.

(** X15. When the decoder emits intact fields and files and then closes,
    [formData()] resolves with a collection in which every name that was
    reported is found with the last entry reported under it, and no other
    name is found. When the decoder emits intact fields and files and
    neither closes nor fails, the promise of [formData()] stays pending. *)
Theorem formData_resolves_when_decoder_closes m opts s pre :
  forallb quiet pre = true ->
  (decoder_runs pf m opts s (pre ++ [on_close]) ->
   exists fd,
     fst (formData pf opts m) = Resolved (JFormData fd) /\
     forall name,
       formData_getAll name fd
       = match last_entry name (entries_of pre) None with
         | Some v => [v]
         | None => []
         end) /\
  (decoder_runs pf m opts s pre -> fst (formData pf opts m) = Pending).
Proof.
  intros Hq. split; intros Hrun; rewrite (formData_runs_decoder Hrun).
  - exists (stored (entries_of pre) []).
    assert (Hset : settlement (decode (call_limits m opts) (pre ++ [on_close]))
                   = Fulfilled).
    { unfold decode. rewrite fold_left_app. cbn [fold_left].
      simpl. unfold promise_resolve.
      rewrite fold_on_event_quiet by exact Hq. reflexivity. }
    assert (Hcol : collection (decode (call_limits m opts) (pre ++ [on_close]))
                   = stored (entries_of pre) []).
    { unfold decode. rewrite fold_on_event_collection.
      replace (entries_of (pre ++ [on_close])) with (entries_of pre);
        [reflexivity|].
      clear. induction pre as [|ev rest IH]; simpl; [reflexivity|].
      destruct (entry_of ev); rewrite <- IH; reflexivity. }
    split.
    + unfold decoding_outcome. rewrite Hset, Hcol. reflexivity.
    + intros name. rewrite stored_getAll. reflexivity.
  - unfold decoding_outcome, decode.
    rewrite fold_on_event_quiet by exact Hq. reflexivity.
Qed.

End Answers.

Lemma body_getter_disturbs_nothing_witness :
  exists b,
    new_PonyfillBody (chunked_platform [[x68]; [x69]] None None) (JReadable 1)
      no_options = Normal b /\
    fst (perform (chunked_platform [[x68]; [x69]] None None) call_text
           (snd (body (boot b))))
    = fst (perform (chunked_platform [[x68]; [x69]] None None) call_text (boot b)).
Proof.
  eexists. split; [reflexivity|].
  exact (@body_getter_disturbs_nothing (chunked_platform [[x68]; [x69]] None None)
           (JReadable 1) no_options _ eq_refl [] call_text).
Defined.

Lemma refused_formData_consumes_nothing_witness :
  exists b s,
    new_PonyfillBody
      (chunked_platform [[x68]; [x69]] None (Some (Error_platform 415)))
      (JReadable 1) no_options = Normal b /\
    fst (generateBody (boot b)) = Some s /\
    fst (formData
           (chunked_platform [[x68]; [x69]] None (Some (Error_platform 415)))
           None (boot b))
    = Rejected (Error_platform 415).
Proof.
  eexists. eexists. split; [reflexivity|]. split; [reflexivity|].
  eapply proj1.
  eapply refused_formData_consumes_nothing; reflexivity.
Defined.

Lemma stream_is_drained_in_order_witness :
  exists b s,
    new_PonyfillBody (chunked_platform [[x68]; [x69]] None None) (JReadable 1)
      no_options = Normal b /\
    fst (generateBody (boot b)) = Some s /\
    has_flowed s (boot b) = false /\
    fst (buffer (chunked_platform [[x68]; [x69]] None None) (boot b))
    = Resolved (JBuffer [x68; x69]).
Proof.
  eexists. eexists. split; [reflexivity|]. split; [reflexivity|].
  split; [reflexivity|].
  eapply proj1.
  eapply stream_is_drained_in_order with (chunks := [[x68]; [x69]]); reflexivity.
Defined.

Lemma stream_failure_is_passed_on_witness :
  exists b s,
    new_PonyfillBody
      (chunked_platform [[x68]] (Some (Error_platform 104)) None)
      (JReadable 1) no_options = Normal b /\
    fst (generateBody (boot b)) = Some s /\
    has_flowed s (boot b) = false /\
    fst (buffer (chunked_platform [[x68]] (Some (Error_platform 104)) None)
           (boot b))
    = Rejected (Error_platform 104).
Proof.
  eexists. eexists. split; [reflexivity|]. split; [reflexivity|].
  split; [reflexivity|].
  eapply proj1.
  eapply stream_failure_is_passed_on with (chunks := [[x68]]); reflexivity.
Defined.

Lemma memory_answers_keep_state_witness :
  exists b,
    new_PonyfillBody (scripted_platform []) (JString (js "hi")) no_options
      = Normal b /\
    answers_from_memory (bodyType (this (boot b))) = true /\
    forallb materialization [call_text; call_buffer; call_json; call_blob] = true /\
    snd (perform_all (scripted_platform [])
           [call_text; call_buffer; call_json; call_blob] (boot b))
    = boot b.
Proof.
  eexists. split; [reflexivity|]. split; [reflexivity|]. split; [reflexivity|].
  eapply memory_answers_keep_state; reflexivity.
Defined.

Lemma contentLength_counts_the_bytes_witness :
  exists b,
    in_memory (JString [0xE9%N]) = true /\
    new_PonyfillBody (scripted_platform []) (JString [0xE9%N]) no_options
      = Normal b /\
    exists bytes,
      fst (buffer (scripted_platform []) (boot b)) = Resolved (JBuffer bytes) /\
      contentLength (this (boot b)) = Some (List.length bytes).
Proof.
  eexists. split; [reflexivity|]. split; [reflexivity|].
  exact (@contentLength_counts_the_bytes (scripted_platform [])
           (JString [0xE9%N]) no_options _ eq_refl eq_refl []).
Defined.

Lemma blob_body_answers_from_the_blob_witness :
  blob_bytes {| blob_parts := [PartString (js "a"); PartBytes [x62]];
                blob_type := js "text/plain" |} = Some [x61; x62] /\
  exists b,
    new_PonyfillBody (scripted_platform [])
      (JPonyfillBlob {| blob_parts := [PartString (js "a"); PartBytes [x62]];
                        blob_type := js "text/plain" |}) no_options = Normal b /\
    fst (buffer (scripted_platform []) (boot b)) = Resolved (JBuffer [x61; x62]).
Proof.
  split; [reflexivity|].
  destruct (@blob_body_answers_from_the_blob (scripted_platform [])
              {| blob_parts := [PartString (js "a"); PartBytes [x62]];
                 blob_type := js "text/plain" |} no_options)
    as [b [Hnew [_ [_ [_ H]]]]].
  exists b. split; [exact Hnew|].
  exact (proj1 (H [x61; x62] eq_refl)).
Defined.

Lemma null_body_is_empty_witness :
  is_nullish JNull = true /\
  exists b,
    new_PonyfillBody (scripted_platform []) JNull no_options = Normal b /\
    fst (text (scripted_platform []) (boot b)) = Resolved (JString []).
Proof.
  split; [reflexivity|].
  destruct (@null_body_is_empty (scripted_platform []) JNull no_options eq_refl)
    as [b [Hnew H]].
  exists b. split; [exact Hnew|]. exact (proj1 (H [])).
Defined.

Lemma formData_tag_is_never_set_witness :
  exists b,
    new_PonyfillBody (scripted_platform [])
      (JFormData [(js "a", EntryString (js "b"))]) no_options = Normal b /\
    bodyType b <> Some BodyInitType.FormData.
Proof.
  eexists. split; [reflexivity|].
  exact (proj1 (formData_tag_is_never_set (scripted_platform []))
           (JFormData [(js "a", EntryString (js "b"))]) no_options _ eq_refl).
Defined.

Lemma formData_rejects_with_first_failure_witness :
  exists b s,
    new_PonyfillBody
      (scripted_platform
         [on_field (js "a") (js "b") false false;
          on_file (js "f") {| fs_limit := true; fs_data := [[x30]];
                              fs_truncated := true |} (js "f.txt") (js "text/plain");
          on_close])
      (JReadable 1) no_options = Normal b /\
    fst (generateBody (boot b)) = Some s /\
    fst (formData
           (scripted_platform
              [on_field (js "a") (js "b") false false;
               on_file (js "f") {| fs_limit := true; fs_data := [[x30]];
                                   fs_truncated := true |} (js "f.txt") (js "text/plain");
               on_close])
           (Some file_limit_10) (boot b))
    = Rejected (Error_FileSizeLimit (Some 10%N)).
Proof.
  eexists. eexists. split; [reflexivity|]. split; [reflexivity|].
  eapply formData_rejects_with_first_failure
    with (pre := [on_field (js "a") (js "b") false false]) (post := [on_close]).
  - repeat split; reflexivity.
  - reflexivity.
  - reflexivity.
Defined.

Lemma formData_resolves_when_decoder_closes_witness :
  exists b s,
    new_PonyfillBody
      (scripted_platform [on_field (js "a") (js "b") false false; on_close])
      (JReadable 1) no_options = Normal b /\
    fst (generateBody (boot b)) = Some s /\
    forallb quiet [on_field (js "a") (js "b") false false] = true /\
    exists fd,
      fst (formData
             (scripted_platform [on_field (js "a") (js "b") false false; on_close])
             None (boot b)) = Resolved (JFormData fd) /\
      forall name,
        formData_getAll name fd
        = match last_entry name
                  (entries_of [on_field (js "a") (js "b") false false]) None with
          | Some v => [v]
          | None => []
          end.
Proof.
  eexists. eexists. split; [reflexivity|]. split; [reflexivity|].
  split; [reflexivity|].
  refine (proj1 (@formData_resolves_when_decoder_closes _ _ _ _
                   [on_field (js "a") (js "b") false false] eq_refl) _).
  repeat split; reflexivity.
Defined.

Section Utf8.

Lemma all_below_spec (p : N -> bool) k :
  forall base,
    all_below k base p = true ->
    forall x, (x < 2 ^ N.of_nat k)%N -> p (base * 2 ^ N.of_nat k + x)%N = true.
Proof.
  induction k as [|k IH]; intros base H x Hx.
  - simpl in *. assert (x = 0%N) by lia. subst x.
    replace (base * 1 + 0)%N with base by lia. exact H.
  - simpl in H. apply andb_true_iff in H. destruct H as [H0 H1].
    rewrite Nat2N.inj_succ, N.pow_succ_r' in *.
    destruct (N.lt_ge_cases x (2 ^ N.of_nat k)) as [Hlt|Hge].
    + replace (base * (2 * 2 ^ N.of_nat k) + x)%N
        with (2 * base * 2 ^ N.of_nat k + x)%N by lia.
      apply IH; assumption.
    + replace (base * (2 * 2 ^ N.of_nat k) + x)%N
        with ((2 * base + 1) * 2 ^ N.of_nat k + (x - 2 ^ N.of_nat k))%N by lia.
      apply IH; [assumption|lia].
Qed.

Lemma all_below_zero (p : N -> bool) k :
  all_below k 0 p = true ->
  forall x, (x < 2 ^ N.of_nat k)%N -> p x = true.
Proof.
  intros H x Hx. pose proof (@all_below_spec p k 0%N H x Hx) as E.
  simpl in E. exact E.
Qed.

Lemma state_is_eq st c n :
  state_is st c n = true ->
  st = {| u_cp := c; u_needed := n; u_lower := 0x80; u_upper := 0xBF |}.
Proof.
  unfold state_is. destruct st as [cp nd lo up]. simpl. intros H.
  repeat (apply andb_true_iff in H; destruct H as [H ?]).
  apply N.eqb_eq in H. apply Nat.eqb_eq in H2.
  apply N.eqb_eq in H1. apply N.eqb_eq in H0. subst. reflexivity.
Qed.

Lemma short_codes_checked : all_below 16 0 short_ok = true.
Proof. vm_compute. reflexivity. Qed.

Lemma lead_bytes_checked : all_below 15 0 lead3_ok = true.
Proof. vm_compute. reflexivity. Qed.

Lemma tail_bytes_checked : all_below 6 0 tail_ok = true.
Proof. vm_compute. reflexivity. Qed.

Lemma utf8_run_app st a b :
  utf8_run st (a ++ b)
  = (fst (utf8_run st a) ++ fst (utf8_run (snd (utf8_run st a)) b),
     snd (utf8_run (snd (utf8_run st a)) b)).
Proof.
  revert st. induction a as [|x a IH]; intros st; simpl.
  - destruct (utf8_run st b); reflexivity.
  - rewrite IH. simpl. rewrite app_assoc. reflexivity.
Qed.

Lemma utf8_decode_from_run st bs :
  utf8_decode_from st bs
  = fst (utf8_run st bs)
    ++ match u_needed (snd (utf8_run st bs)) with
       | O => []
       | S _ => [0xFFFD%N]
       end.
Proof.
  revert st. induction bs as [|b rest IH]; intros st; simpl.
  - reflexivity.
  - rewrite IH, app_assoc. reflexivity.
Qed.

Lemma short_code_round_trip c :
  scalar c = true -> (c < 0x10000)%N ->
  utf8_run utf8_init (utf8_encode_cp c) = ([c], utf8_init).
Proof.
  intros Hs Hc.
  pose proof (@all_below_zero short_ok 16 short_codes_checked c Hc) as H.
  unfold short_ok in H. rewrite Hs in H.
  change (negb true) with false in H. rewrite orb_false_l in H.
  destruct (utf8_run utf8_init (utf8_encode_cp c)) as [[|c' [|? ?]] st];
    try discriminate.
  apply andb_true_iff in H. destruct H as [H1 H2].
  apply N.eqb_eq in H1. apply state_is_eq in H2. subst. reflexivity.
Qed.

Lemma long_code_bytes c :
  (0x10000 <= c)%N ->
  utf8_encode_cp c
  = utf8_lead3 (N.shiftr c 6) ++ [nbyte (N.lor 0x80 (N.land c 0x3F))].
Proof.
  intros Hc. unfold utf8_encode_cp, utf8_lead3, is_surrogate.
  replace (c <=? 0xDFFF)%N with false by (symmetry; apply N.leb_gt; lia).
  rewrite andb_false_r.
  replace (c <? 0x80)%N with false by (symmetry; apply N.ltb_ge; lia).
  replace (c <? 0x800)%N with false by (symmetry; apply N.ltb_ge; lia).
  replace (c <? 0x10000)%N with false by (symmetry; apply N.ltb_ge; lia).
  rewrite !N.shiftr_shiftr. reflexivity.
Qed.

Lemma long_code_steps h d :
  between 0x400 h 0x43FF = true ->
  lead3_ok h = true ->
  tail_ok d = true ->
  utf8_run utf8_init (utf8_lead3 h ++ [nbyte (N.lor 0x80 d)])
  = ([N.lor (N.shiftl h 6) d], utf8_init).
Proof.
  intros Hh H3 H1. rewrite utf8_run_app.
  unfold lead3_ok in H3. rewrite Hh in H3.
  change (negb true) with false in H3. rewrite orb_false_l in H3.
  destruct (utf8_run utf8_init (utf8_lead3 h)) as [[|? ?] st]; try discriminate.
  apply state_is_eq in H3. subst st.
  unfold tail_ok in H1. cbv zeta in H1.
  apply andb_true_iff in H1. destruct H1 as [Hb Hl]. apply N.eqb_eq in Hl.
  cbn [utf8_run utf8_step u_needed u_lower u_upper u_cp app fst snd].
  rewrite Hb, Hl. reflexivity.
Qed.

Lemma long_code_round_trip c :
  (0x10000 <= c)%N -> (c <= 0x10FFFF)%N ->
  utf8_run utf8_init (utf8_encode_cp c) = ([c], utf8_init).
Proof.
  intros Hlo Hhi. rewrite (long_code_bytes Hlo).
  assert (Hh : (1024 <= N.shiftr c 6 <= 17407)%N).
  { rewrite N.shiftr_div_pow2. change (2 ^ 6)%N with 64%N.
    split.
    - apply N.div_le_lower_bound; lia.
    - apply N.lt_succ_r. apply N.Div0.div_lt_upper_bound; lia. }
  assert (Hd : (N.land c 0x3F < 64)%N).
  { change 0x3F%N with (N.ones 6). rewrite N.land_ones.
    apply N.mod_lt. discriminate. }
  rewrite long_code_steps.
  - f_equal. f_equal. rewrite <- N.ldiff_ones_r. change 0x3F%N with (N.ones 6).
    apply N.lor_ldiff_and.
  - unfold between. apply andb_true_iff. split; apply N.leb_le; lia.
  - apply (@all_below_zero lead3_ok 15 lead_bytes_checked).
    change (2 ^ N.of_nat 15)%N with 32768%N. lia.
  - apply (@all_below_zero tail_ok 6 tail_bytes_checked).
    change (2 ^ N.of_nat 6)%N with 64%N. exact Hd.
Qed.

Lemma scalar_round_trip c :
  scalar c = true -> utf8_run utf8_init (utf8_encode_cp c) = ([c], utf8_init).
Proof.
  intros Hs. destruct (N.lt_ge_cases c 0x10000) as [Hlt|Hge].
  - apply short_code_round_trip; assumption.
  - apply long_code_round_trip; [exact Hge|].
    unfold scalar in Hs. apply andb_true_iff in Hs. destruct Hs as [Hs _].
    apply N.leb_le in Hs. exact Hs.
Qed.

Lemma utf8_run_encode s :
  forallb scalar s = true -> utf8_run utf8_init (utf8_encode s) = (s, utf8_init).
Proof.
  induction s as [|c rest IH]; simpl; intros H; [reflexivity|].
  apply andb_true_iff in H. destruct H as [Hc Hrest].
  unfold utf8_encode in *. rewrite utf8_run_app, (scalar_round_trip _ Hc).
  simpl. rewrite (IH Hrest). reflexivity.
Qed.

(** The UTF-8 decoding of the encoding of a well-formed string is the
    string. *)
Lemma utf8_decode_encode s :
  forallb scalar s = true -> utf8_decode (utf8_encode s) = s.
Proof.
  intros H. unfold utf8_decode.
  rewrite utf8_decode_from_run, (utf8_run_encode _ H). simpl. apply app_nil_r.
Qed.

Variable pf : Platform.

(** X16. On a Body built from a Buffer, Uint8Array or ArrayBuffer, or from
    a string without lone surrogates, [text()] is the UTF-8 decoding of the
    bytes [buffer()] resolves with, after any calls. *)
Theorem text_is_the_decoded_buffer init options b :
  in_memory init = true ->
  (forall s, init = JString s -> forallb scalar s = true) ->
  new_PonyfillBody pf init options = Normal b ->
  forall cs,
    let m := snd (perform_all pf cs (boot b)) in
    exists bytes,
      fst (buffer pf m) = Resolved (JBuffer bytes) /\
      fst (text pf m) = Resolved (JString (utf8_decode bytes)).
Proof.
  intros Hmem Hwf Hnew cs m.
  destruct (@new_PonyfillBody_inv pf _ _ _ Hnew) as [r [Hr Hb]].
  assert (Hfr : frame b (this m)).
  { apply perform_all_frame. apply frame_refl. }
  pose proof (frame_bodyType Hfr) as Hbt.
  pose proof (frame_bodyInit Hfr) as Hbi.
  rewrite Hb in Hbt, Hbi. simpl in Hbt, Hbi.
  unfold text, await, buffer. cbv zeta. rewrite Hbt, Hbi.
  destruct init; try discriminate Hmem;
    unfold processBodyInit in Hr; simpl in Hr; inversion Hr; subst r; simpl;
    eexists; split; try reflexivity.
  rewrite (utf8_decode_encode s (Hwf s eq_refl)). reflexivity.
Qed.

End Utf8.

Lemma text_is_the_decoded_buffer_witness :
  exists b,
    in_memory (JString [0xE9%N; 0x1F600%N]) = true /\
    (forall s, JString [0xE9%N; 0x1F600%N] = JString s ->
               forallb scalar s = true) /\
    new_PonyfillBody (scripted_platform []) (JString [0xE9%N; 0x1F600%N])
      no_options = Normal b /\
    exists bytes,
      fst (buffer (scripted_platform []) (boot b)) = Resolved (JBuffer bytes) /\
      fst (text (scripted_platform []) (boot b))
      = Resolved (JString (utf8_decode bytes)).
Proof.
  assert (Hwf : forall s, JString [0xE9%N; 0x1F600%N] = JString s ->
                          forallb scalar s = true).
  { intros s H. inversion H. reflexivity. }
  eexists. split; [reflexivity|]. split; [exact Hwf|]. split; [reflexivity|].
  exact (@text_is_the_decoded_buffer (scripted_platform [])
           (JString [0xE9%N; 0x1F600%N]) no_options _ eq_refl Hwf eq_refl []).
Defined.

Section Accessor.

Variable pf : Platform.


End Accessor.

